(** * Linear Programming Solver front end (app.py)

    A shallow embedding of the input validation, the solve dispatch and the
    result presentation of [app.py], and the properties of that code.

    Conventions of the embedding.
    - A Python [str] is a Rocq [string], one [ascii] per character (the
      characters of code point below 256).
    - A Python [float] is a binary64 primitive float.
    - A dict with a fixed set of keys is a record; a key a dict may lack is
      an [option] field, and reading an absent key raises [KeyError].
    - Code that can raise returns an [outcome]; code that also draws on the
      page runs in the [ui] monad, whose log is the sequence of Streamlit
      calls made so far.
    - The builtins [float] and the [.4f] format, and the modules that are
      imported by [app.py] (parser, formatter, the three solvers) are taken
      as parameters, through the classes [Builtins] and [Backend]. *)

From Stdlib Require Import String Ascii List Bool Arith Lia PrimFloat DecimalString.
Import ListNotations.
Open Scope list_scope.
Open Scope string_scope.

(** ** Python strings *)

(** [str.isspace] on one character: U+0009..U+000D, U+001C..U+0020, U+0085
    and U+00A0 are the white space characters below 256. *)
Definition isspace (c : ascii) : bool :=
  let n := nat_of_ascii c in
  (((9 <=? n) && (n <=? 13)) || ((28 <=? n) && (n <=? 32)) || (n =? 133) || (n =? 160))%nat.

Fixpoint lstrip (s : string) : string :=
  match s with
  | EmptyString => EmptyString
  | String c rest => if isspace c then lstrip rest else s
  end.

Fixpoint rstrip (s : string) : string :=
  match s with
  | EmptyString => EmptyString
  | String c rest =>
      match rstrip rest with
      | EmptyString => if isspace c then EmptyString else String c EmptyString
      | kept => String c kept
      end
  end.

(** [s.strip()] *)
Definition strip (s : string) : string := rstrip (lstrip s).

(** [s.split(sep)] for a separator of one character: the pieces between the
    separators, empty pieces included; the empty string gives one empty piece. *)
Fixpoint split (sep : ascii) (s : string) : list string :=
  match s with
  | EmptyString => [EmptyString]
  | String c rest =>
      if Ascii.eqb c sep then EmptyString :: split sep rest
      else match split sep rest with
           | [] => [String c EmptyString]
           | piece :: pieces => String c piece :: pieces
           end
  end.

(** Truth value of a string: [if s:] holds when [s] is not empty. *)
Definition truthy (s : string) : bool :=
  match s with
  | EmptyString => false
  | String _ _ => true
  end.

(** [str(n)] for a non-negative int. *)
Definition str_of_nat (n : nat) : string := NilEmpty.string_of_uint (Nat.to_uint n).

(** [needle in haystack] for two strings. *)
Fixpoint contains (haystack needle : string) : bool :=
  if prefix needle haystack then true
  else match haystack with
       | EmptyString => false
       | String _ rest => contains rest needle
       end.

(** ** Exceptions *)

(** The exceptions of class [Exception] that the modelled code meets. *)
Inductive exn : Type :=
| ValueError (msg : string)
| KeyError (key : string)
| Exception (msg : string).

(** [str(e)] *)
Definition str_of_exn (e : exn) : string :=
  match e with
  | ValueError msg => msg
  | KeyError key => "'" ++ key ++ "'"
  | Exception msg => msg
  end.

Inductive outcome (A : Type) : Type :=
| Return (a : A)
| Raise (e : exn).
Arguments Return {A} a.
Arguments Raise {A} e.

Definition obind {A B : Type} (m : outcome A) (k : A -> outcome B) : outcome B :=
  match m with
  | Return a => k a
  | Raise e => Raise e
  end.

Declare Scope outcome_scope.
Delimit Scope outcome_scope with outcome.
Notation "x <- m ;; k" := (obind m (fun x => k))
  (at level 61, m at next level, right associativity) : outcome_scope.

(** ** Builtins taken as parameters *)

Class Builtins : Type := {
  (** [float(s)]: the number a string denotes, or the [ValueError] raised *)
  py_float : string -> outcome float;
  (** [f"{x:.4f}"] *)
  format_4f : float -> string
}.

(** ** validate_problem_input *)

(** One entry of the [constraints] list built by [show_problem_input]. *)
Record constraint : Type := {
  coefficients : string;
  type : string;
  rhs : option float   (* [None] is Python's [None] *)
}.

(** The dict returned by [validate_problem_input]. *)
Record validation : Type := {
  valid : bool;
  error : option string;
  num_variables : option nat
}.

Definition invalid (reason : string) : validation :=
  {| valid := false; error := Some reason; num_variables := None |}.

Definition well_formed (n : nat) : validation :=
  {| valid := true; error := None; num_variables := Some n |}.

Section Validation.
Context {B : Builtins}.
Local Open Scope outcome_scope.

(** [[float(x.strip()) for x in tokens if x.strip()]] *)
Fixpoint float_list (tokens : list string) : outcome (list float) :=
  match tokens with
  | [] => Return []
  | x :: rest =>
      if truthy (strip x) then
        v <- py_float (strip x) ;;
        vs <- float_list rest ;;
        Return (v :: vs)
      else float_list rest
  end.

(** [[float(x.strip()) for x in s.split(',') if x.strip()]] *)
Definition parse_coeffs (s : string) : outcome (list float) :=
  float_list (split "," s).

(** The loop [for i, constraint in enumerate(constraints)] from index [i] on,
    and the [return] that follows it. *)
Fixpoint check_constraints (num_vars i : nat) (constraints : list constraint)
  : outcome validation :=
  match constraints with
  | [] => Return (well_formed num_vars)
  | c :: rest =>
      if negb (truthy (strip (coefficients c))) then
        Return (invalid ("Empty coefficients in constraint " ++ str_of_nat (i + 1)))
      else
        constraint_coeffs <- parse_coeffs (coefficients c) ;;
        if negb (length constraint_coeffs =? num_vars)%nat then
          Return (invalid ("Constraint " ++ str_of_nat (i + 1) ++ " has "
                           ++ str_of_nat (length constraint_coeffs)
                           ++ " variables, expected " ++ str_of_nat num_vars))
        else
          match rhs c with
          | None => Return (invalid ("Missing RHS value in constraint " ++ str_of_nat (i + 1)))
          | Some _ => check_constraints num_vars (S i) rest
          end
  end.

(** The body of the [try] block. *)
Definition validate_body (obj_coeffs : string) (constraints : list constraint)
  : outcome validation :=
  obj_list <- parse_coeffs obj_coeffs ;;
  match obj_list with
  | [] => Return (invalid "Empty objective function")
  | _ :: _ =>
      let num_vars := length obj_list in
      check_constraints num_vars 0 constraints
  end.

(** [validate_problem_input(obj_coeffs, constraints)], with its two
    [except] clauses. *)
Definition validate_problem_input (obj_coeffs : string) (constraints : list constraint)
  : outcome validation :=
  match validate_body obj_coeffs constraints with
  | Return r => Return r
  | Raise (ValueError msg) =>
      Return (invalid ("Invalid number format: " ++ str_of_exn (ValueError msg)))
  | Raise e => Return (invalid ("Validation error: " ++ str_of_exn e))
  end.

End Validation.

(** ** The page: Streamlit calls as a log *)

(** The solver classes imported by [app.py]. *)
Inductive solver : Type := SimplexSolver | GraphicalSolver | BigMSolver.

(** The values [app.py] passes around without looking inside. *)
Class Payloads : Type := {
  table : Type;         (* the [step['table']] handed to [st.dataframe] *)
  figure : Type;        (* the [step['figure']] handed to [st.pyplot] *)
  problem_rest : Type   (* the keys of a parsed problem that [app.py] never reads *)
}.

Section Page.
Context {P : Payloads}.

(** One call that [app.py] makes on the page, in the order made.
    [with st.expander(label, expanded)] and [with col:] are logged when they
    are entered; the calls that follow are their bodies. A call of
    [solver.solve] is logged as [solver_solve], so that which engine ran can
    be read off the log. *)
Inductive event : Type :=
| st_error (body : string)
| st_warning (body : string)
| st_info (body : string)
| st_success (body : string)
| st_markdown (body : string)
| st_subheader (body : string)
| st_write (body : string)
| st_expander (label : string) (expanded : bool)
| st_dataframe (data : table)
| st_pyplot (fig : figure)
| st_columns (n : nat)
| with_col (k : nat)
| solver_solve (s : solver).

(** The text an event puts on the page, if any. *)
Definition text_of (e : event) : option string :=
  match e with
  | st_error body | st_warning body | st_info body | st_success body
  | st_markdown body | st_subheader body | st_write body => Some body
  | st_expander label _ => Some label
  | _ => None
  end.

(** A computation that draws on the page and may raise: the calls made, and
    how it ended. What was drawn before an exception stays drawn. *)
Definition ui (A : Type) : Type := (list event * outcome A)%type.

Definition ret {A : Type} (a : A) : ui A := ([], Return a).

Definition bind {A B : Type} (m : ui A) (k : A -> ui B) : ui B :=
  match m with
  | (log, Return a) => let (log', r) := k a in ((log ++ log')%list, r)
  | (log, Raise e) => (log, Raise e)
  end.

Definition emit (e : event) : ui unit := ([e], Return tt).

Definition lift {A : Type} (m : outcome A) : ui A := ([], m).

(** [try: body except Exception as e: handler(e)] *)
Definition try_except {A : Type} (body : ui A) (handler : exn -> ui A) : ui A :=
  match body with
  | (log, Return a) => (log, Return a)
  | (log, Raise e) => let (log', r) := handler e in ((log ++ log')%list, r)
  end.

(** [d[key]] on an optional key. *)
Definition getitem {A : Type} (key : string) (field : option A) : ui A :=
  match field with
  | Some v => ret v
  | None => lift (Raise (KeyError key))
  end.

(** The log of a computation and its end. *)
Definition drawn {A : Type} (m : ui A) : list event := fst m.
Definition ending {A : Type} (m : ui A) : outcome A := snd m.

(** Some text on the page contains [s]. *)
Definition shows (log : list event) (s : string) : bool :=
  existsb (fun e => match text_of e with
                    | Some body => contains body s
                    | None => false
                    end) log.

End Page.

Declare Scope ui_scope.
Delimit Scope ui_scope with ui.
Notation "x <- m ;; k" := (bind m (fun x => k))
  (at level 61, m at next level, right associativity) : ui_scope.
Notation "m ;; k" := (bind m (fun _ => k))
  (at level 61, right associativity) : ui_scope.

(** ** Results *)

Section Results.
Context {P : Payloads}.

(** One entry of [result['steps']]. *)
Record step : Type := {
  title : string;
  explanation : string;
  step_table : option table;     (* key 'table' *)
  step_figure : option figure    (* key 'figure' *)
}.

(** The dict a solver returns. Every key may be absent. *)
Record result : Type := {
  status : option string;
  message : option string;
  steps : option (list step);
  variables : option (list (string * float));   (* a dict, in insertion order *)
  objective_value : option float
}.

(** The dict returned by [InputParser.parse_problem]. *)
Record parsed_problem : Type := {
  pp_error : option string;     (* key 'error'; [None] is Python's [None] *)
  objective : list float;       (* key 'objective' *)
  pp_rest : problem_rest
}.

End Results.

(** The modules [app.py] imports and calls. *)
Class Backend {P : Payloads} : Type := {
  (** [InputParser().parse_problem(problem_type, obj_coeffs, constraints, non_negativity)] *)
  parse_problem : string -> string -> list constraint -> bool -> outcome parsed_problem;
  (** [ProblemFormatter().format_problem(parsed_problem)] *)
  format_problem : parsed_problem -> outcome string;
  (** [Solver().solve(parsed_problem)] for each of the three classes *)
  solve : solver -> parsed_problem -> outcome result
}.

(** ** display_solution *)

(** The literal [0.001] of [display_solution]. *)
#[warnings="-inexact-float"]
Definition active_threshold : float := 0.001%float.

Section Presentation.
Context {B : Builtins} {P : Payloads}.
Local Open Scope ui_scope.

(** [for x in xs: body(x)] *)
Fixpoint for_each {A : Type} (xs : list A) (body : A -> ui unit) : ui unit :=
  match xs with
  | [] => ret tt
  | x :: rest => body x ;; for_each rest body
  end.

(** [result['status'] == s] *)
Definition status_is (r : result) (s : string) : ui bool :=
  st <- getitem "status" (status r) ;;
  ret (st =? s).

(** The body of [for i, step in enumerate(result['steps'], 1)], from [i] on. *)
Fixpoint show_steps (i : nat) (ss : list step) : ui unit :=
  match ss with
  | [] => ret tt
  | s :: rest =>
      emit (st_expander ("Step " ++ str_of_nat i ++ ": " ++ title s) (i =? 1)%nat) ;;
      emit (st_markdown (explanation s)) ;;
      match step_table s with
      | Some t => emit (st_dataframe t)
      | None => ret tt
      end ;;
      match step_figure s with
      | Some f => emit (st_pyplot f)
      | None => ret tt
      end ;;
      show_steps (S i) rest
  end.

(** The branch [if result['status'] == 'optimal':] of the final solution. *)
Definition show_optimal (r : result) (method : string) : ui unit :=
  emit (st_success "✅ Optimal solution found!") ;;
  emit (st_columns 3) ;;
  emit (with_col 1) ;;
  emit (st_markdown "**Decision Variables:**") ;;
  vars <- getitem "variables" (variables r) ;;
  for_each vars (fun '(var, value) => emit (st_write (var ++ " = " ++ format_4f value))) ;;
  emit (with_col 2) ;;
  emit (st_markdown "**Objective Value:**") ;;
  z <- getitem "objective_value" (objective_value r) ;;
  emit (st_write ("Z = " ++ format_4f z)) ;;
  emit (with_col 3) ;;
  emit (st_markdown "**Solution Type:**") ;;
  emit (st_write "Basic Feasible Solution") ;;
  emit (st_write "Corner Point of Feasible Region") ;;
  emit (st_subheader "💡 Solution Interpretation") ;;
  vars1 <- getitem "variables" (variables r) ;;
  let total_variables := length vars1 in
  vars2 <- getitem "variables" (variables r) ;;
  let basic_variables :=
    length (filter (fun '(_, value) => PrimFloat.ltb active_threshold value) vars2) in
  emit (st_columns 2) ;;
  emit (with_col 1) ;;
  emit (st_info ("**Active Variables:** " ++ str_of_nat basic_variables
                 ++ " out of " ++ str_of_nat total_variables)) ;;
  emit (st_markdown "Variables with positive values in the optimal solution") ;;
  emit (with_col 2) ;;
  emit (st_info ("**Method Used:** " ++ method)) ;;
  if method =? "Graphical Method" then
    emit (st_markdown "Solution found by evaluating corner points")
  else if method =? "Simplex Method" then
    emit (st_markdown "Solution found through tableau iterations")
  else
    emit (st_markdown "Solution found using artificial variables").

(** The block under [# Add learning insights]. *)
Definition show_insights (method : string) : ui unit :=
  emit (st_subheader "🎓 Learning Insights") ;;
  let insights :=
    (["💡 In optimal solutions, at least n constraints are tight (where n = number of variables)"]
     ++ (if method =? "Graphical Method"
         then ["📈 Graphical method shows that optimal solutions occur at corner points"]
         else [])
     ++ (if method =? "Simplex Method"
         then ["🔢 Simplex method efficiently moves from one corner point to a better one"]
         else [])
     ++ (if method =? "Big M Method"
         then ["🎯 Big M method handles complex constraint types by using artificial variables"]
         else []))%list in
  for_each insights (fun insight => emit (st_markdown insight)).

(** [display_solution(result, method)] *)
Definition display_solution (r : result) (method : string) : ui unit :=
  is_error <- status_is r "error" ;;
  if is_error then
    msg <- getitem "message" (message r) ;;
    emit (st_error msg)
  else
    match steps r with
    | Some ss =>
        emit (st_subheader "Step-by-Step Solution") ;;
        show_steps 1 ss
    | None => ret tt
    end ;;
    emit (st_subheader "Final Solution") ;;
    is_optimal <- status_is r "optimal" ;;
    (if is_optimal then show_optimal r method
     else
       is_unbounded <- status_is r "unbounded" ;;
       if is_unbounded then
         emit (st_warning "⚠️ The problem is unbounded.") ;;
         emit (st_markdown "**Meaning:** The objective function can be increased indefinitely.") ;;
         emit (st_markdown "**Cause:** The feasible region extends infinitely in the direction of optimization.") ;;
         emit (st_markdown "**Action:** Check if constraints are missing or incorrectly formulated.")
       else
         is_infeasible <- status_is r "infeasible" ;;
         if is_infeasible then
           emit (st_error "❌ The problem is infeasible.") ;;
           emit (st_markdown "**Meaning:** There is no solution that satisfies all constraints simultaneously.") ;;
           emit (st_markdown "**Cause:** Constraints are contradictory or too restrictive.") ;;
           emit (st_markdown "**Action:** Review constraints for conflicts or relax some requirements.")
         else
           st <- getitem "status" (status r) ;;
           emit (st_info ("Status: " ++ st))) ;;
    is_optimal' <- status_is r "optimal" ;;
    if is_optimal' then show_insights method else ret tt.

End Presentation.

(** ** solve_problem and the two buttons of show_problem_input *)

Section Solve.
Context {B : Builtins} {P : Payloads} {K : Backend}.
Local Open Scope ui_scope.

(** Truth value of [parsed_problem['error']]: [None] and the empty string
    are false. *)
Definition error_set (p : parsed_problem) : option string :=
  match pp_error p with
  | Some msg => if truthy msg then Some msg else None
  | None => None
  end.

(** The body of the [try] block of [solve_problem]. *)
Definition solve_body (problem_type method obj_coeffs : string)
    (constraints : list constraint) (non_negativity : bool) : ui unit :=
  parsed <- lift (parse_problem problem_type obj_coeffs constraints non_negativity) ;;
  match error_set parsed with
  | Some msg => emit (st_error msg)
  | None =>
      emit (st_subheader "Problem Formulation") ;;
      formatted <- lift (format_problem parsed) ;;
      emit (st_markdown formatted) ;;
      emit (st_subheader ("Solution using " ++ method)) ;;
      if method =? "Simplex Method" then
        emit (solver_solve SimplexSolver) ;;
        r <- lift (solve SimplexSolver parsed) ;;
        display_solution r method
      else if method =? "Graphical Method" then
        if (2 <? length (objective parsed))%nat then
          emit (st_error "Graphical method only supports problems with 2 variables.")
        else
          emit (solver_solve GraphicalSolver) ;;
          r <- lift (solve GraphicalSolver parsed) ;;
          display_solution r method
      else
        emit (solver_solve BigMSolver) ;;
        r <- lift (solve BigMSolver parsed) ;;
        display_solution r method
  end.

(** [solve_problem(problem_type, method, obj_coeffs, constraints, non_negativity)] *)
Definition solve_problem (problem_type method obj_coeffs : string)
    (constraints : list constraint) (non_negativity : bool) : ui unit :=
  try_except
    (solve_body problem_type method obj_coeffs constraints non_negativity)
    (fun e => emit (st_error ("An error occurred while solving the problem: " ++ str_of_exn e))).

(** The rows of the form that reach [constraints]: a row is appended
    [if constraint_coeffs:], that is when its coefficient text is not empty. *)
Definition collect_constraints (rows : list constraint) : list constraint :=
  filter (fun c => truthy (coefficients c)) rows.

Definition please_enter : string :=
  "Please enter the objective function and at least one constraint.".

(** The block under [if st.button("🔍 Validate Problem", ...):]. *)
Definition validate_clicked (problem_type obj_coeffs : string)
    (constraints : list constraint) : ui unit :=
  if truthy obj_coeffs && (0 <? length constraints)%nat then
    validation_result <- lift (validate_problem_input obj_coeffs constraints) ;;
    if valid validation_result then
      emit (st_success "✅ Problem is well-formulated!") ;;
      emit (st_markdown "**Problem Summary:**") ;;
      n <- getitem "num_variables" (num_variables validation_result) ;;
      emit (st_markdown ("• Variables: " ++ str_of_nat n)) ;;
      emit (st_markdown ("• Constraints: " ++ str_of_nat (length constraints))) ;;
      emit (st_markdown ("• Problem type: " ++ problem_type))
    else
      reason <- getitem "error" (error validation_result) ;;
      emit (st_error ("❌ Problem validation failed: " ++ reason))
  else
    emit (st_error please_enter).

(** The block under [if st.button("🚀 Solve Problem", ...):]. *)
Definition solve_clicked (problem_type method obj_coeffs : string)
    (constraints : list constraint) (non_negativity : bool) : ui unit :=
  if truthy obj_coeffs && (0 <? length constraints)%nat then
    validation_result <- lift (validate_problem_input obj_coeffs constraints) ;;
    if valid validation_result then
      solve_problem problem_type method obj_coeffs constraints non_negativity
    else
      reason <- getitem "error" (error validation_result) ;;
      emit (st_error ("Cannot solve: " ++ reason))
  else
    emit (st_error please_enter).

End Solve.

(** ** Vocabulary of the properties *)

(** The comma-separated tokens of a coefficient text that are not blank. *)
Definition non_blank_tokens (s : string) : list string :=
  filter (fun x => truthy (strip x)) (split "," s).

(** A constraint with the number in its right-hand side replaced by zero;
    a missing right-hand side stays missing. *)
Definition forget_rhs (c : constraint) : constraint :=
  {| coefficients := coefficients c;
     type := type c;
     rhs := match rhs c with Some _ => Some 0%float | None => None end |}.

(** A finite number, as [math.isfinite] tells it. *)
Definition isfinite (x : float) : bool := negb (is_nan x || is_infinity x).

(** Some right-hand side of the list is [None], infinite or not a number. *)
Definition some_rhs_not_finite (constraints : list constraint) : bool :=
  existsb (fun c => match rhs c with
                    | Some x => negb (isfinite x)
                    | None => true
                    end) constraints.

Section ResultUpdates.
Context {P : Payloads}.

(** [r] with the keys 'variables' and 'objective_value' replaced. *)
Definition with_solution (r : result) (vars : option (list (string * float)))
    (z : option float) : result :=
  {| status := status r; message := message r; steps := steps r;
     variables := vars; objective_value := z |}.

(** [r] with the key 'message' replaced. *)
Definition with_message (r : result) (msg : option string) : result :=
  {| status := status r; message := msg; steps := steps r;
     variables := variables r; objective_value := objective_value r |}.

(** The solver class that [solve_problem] instantiates for a method name. *)
Definition solver_of (method : string) : solver :=
  if method =? "Simplex Method" then SimplexSolver
  else if method =? "Graphical Method" then GraphicalSolver
  else BigMSolver.

End ResultUpdates.

Section Vocabulary.
Context {B : Builtins} {P : Payloads}.

(** What [check_constraints] asks of one constraint before it moves on. *)
Definition passes (num_vars : nat) (c : constraint) : Prop :=
  truthy (strip (coefficients c)) = true
  /\ (exists l, parse_coeffs (coefficients c) = Return l /\ length l = num_vars)
  /\ rhs c <> None.

(** Some non-blank token of the text is refused by [float]. *)
Definition non_numeric_token (s : string) : Prop :=
  exists tok e, In tok (non_blank_tokens s) /\ py_float (strip tok) = Raise e.

(** The line [st.write(f"{var} = {value:.4f}")] for one item of the dict. *)
Definition write_variable (entry : string * float) : event :=
  st_write (fst entry ++ " = " ++ format_4f (snd entry)).

(** What [solve_problem] draws between the parse and the call of a solver. *)
Definition heading (formatted method : string) : list event :=
  [st_subheader "Problem Formulation"; st_markdown formatted;
   st_subheader ("Solution using " ++ method)].

(** The line drawn by the [except] clause of [solve_problem]. *)
Definition error_line (e : exn) : event :=
  st_error ("An error occurred while solving the problem: " ++ str_of_exn e).

End Vocabulary.

(** ** Instances for running the model on concrete inputs *)

Definition digit_value (c : ascii) : option float :=
  match c with
  | "0"%char => Some 0%float | "1"%char => Some 1%float | "2"%char => Some 2%float
  | "3"%char => Some 3%float | "4"%char => Some 4%float | "5"%char => Some 5%float
  | "6"%char => Some 6%float | "7"%char => Some 7%float | "8"%char => Some 8%float
  | "9"%char => Some 9%float | _ => None
  end.

Fixpoint decimal_digits (acc : float) (s : string) : option float :=
  match s with
  | EmptyString => Some acc
  | String c rest =>
      match digit_value c with
      | Some d => decimal_digits (acc * 10 + d)%float rest
      | None => None
      end
  end.

(** [float] on the unsigned decimal integers of at most fifteen digits,
    where the value built digit by digit is exact. Every other string is
    turned down with the [ValueError] of [float]; this instance is only
    run on strings of the first kind and on strings that [float] turns
    down as well. *)
Definition decimal_float (s : string) : outcome float :=
  let refused := Raise (ValueError ("could not convert string to float: '" ++ s ++ "'")) in
  if truthy s && (String.length s <=? 15)%nat then
    match decimal_digits 0%float s with
    | Some x => Return x
    | None => refused
    end
  else refused.

(** A stand-in for the [.4f] format that prints no digits. *)
Definition blank_4f (x : float) : string := "#.####".

#[export] Instance sample_builtins : Builtins :=
  {| py_float := decimal_float; format_4f := blank_4f |}.

#[export] Instance sample_payloads : Payloads :=
  {| table := list (list string); figure := unit; problem_rest := unit |}.

(** A parsed problem without error. *)
Definition sample_problem (obj_list : list float) : @parsed_problem sample_payloads :=
  {| pp_error := None; objective := obj_list; pp_rest := tt |}.

(** A test double of the parser: the objective is read by [parse_coeffs],
    and a text that does not parse is reported under 'error'. *)
Definition sample_parse (problem_type obj_coeffs : string)
    (constraints : list constraint) (non_negativity : bool)
  : outcome (@parsed_problem sample_payloads) :=
  match parse_coeffs obj_coeffs with
  | Return obj_list => Return (sample_problem obj_list)
  | Raise e => Return {| pp_error := Some (str_of_exn e); objective := []; pp_rest := tt |}
  end.

(** A result of each status, for the test double of the solvers. *)
Definition sample_optimal : @result sample_payloads :=
  {| status := Some "optimal"; message := None;
     steps := Some [ {| title := "Initial Tableau"; explanation := "All slacks are basic.";
                        step_table := Some [["x1"; "x2"; "RHS"]]; step_figure := None |} ];
     variables := Some [("x1", 40%float); ("x2", 20%float)];
     objective_value := Some 160%float |}.

Definition sample_unbounded : @result sample_payloads :=
  {| status := Some "unbounded"; message := Some "No leaving row for x1";
     steps := None; variables := None; objective_value := None |}.

Definition sample_infeasible : @result sample_payloads :=
  {| status := Some "infeasible"; message := Some "Artificial variable a1 stays basic";
     steps := None; variables := None; objective_value := None |}.

Definition sample_error : @result sample_payloads :=
  {| status := Some "error"; message := Some "iteration limit exceeded";
     steps := None; variables := None; objective_value := None |}.

(** A test double of the imported modules: the simplex engine reports an
    optimum, the graphical engine an unbounded problem, the Big M engine
    raises. *)
#[export] Instance sample_backend : @Backend sample_payloads :=
  {| parse_problem := sample_parse;
     format_problem := fun _ => Return "Maximize Z";
     solve := fun s _ =>
       match s with
       | SimplexSolver => Return sample_optimal
       | GraphicalSolver => Return sample_unbounded
       | BigMSolver => Raise (Exception "singular pivot")
       end |}.

Definition row (coeffs : string) (x : option float) : constraint :=
  {| coefficients := coeffs; type := "="; rhs := x |}.

(** * Properties *)

(** ** Facts about the validation *)

Section ValidationFacts.
Context {B : Builtins}.

Lemma float_list_length (tokens : list string) (l : list float) :
  float_list tokens = Return l ->
  length l = length (filter (fun x => truthy (strip x)) tokens).
Proof.
  revert l; induction tokens as [|x rest IH]; intros l H; simpl in *.
  - injection H as <-. reflexivity.
  - destruct (truthy (strip x)).
    + destruct (py_float (strip x)) as [v|e]; simpl in H; [|discriminate].
      destruct (float_list rest) as [vs|e]; simpl in H; [|discriminate].
      injection H as <-. simpl. f_equal. now apply IH.
    + now apply IH.
Qed.

Lemma float_list_tokens (tokens : list string) (l : list float) :
  float_list tokens = Return l ->
  forall tok, In tok tokens -> truthy (strip tok) = true ->
              exists v, py_float (strip tok) = Return v.
Proof.
  revert l; induction tokens as [|x rest IH]; intros l H tok Hin Htok; simpl in *.
  - contradiction.
  - destruct Hin as [->|Hin].
    + rewrite Htok in H.
      destruct (py_float (strip tok)) as [v|e]; [now exists v|discriminate].
    + destruct (truthy (strip x)).
      * destruct (py_float (strip x)) as [v|e]; simpl in H; [|discriminate].
        destruct (float_list rest) as [vs|e]; simpl in H; [|discriminate].
        now apply (IH vs).
      * now apply (IH l).
Qed.

Lemma float_list_blank (tokens : list string) :
  filter (fun x => truthy (strip x)) tokens = [] -> float_list tokens = Return [].
Proof.
  induction tokens as [|x rest IH]; simpl; intros H; [reflexivity|].
  destruct (truthy (strip x)); [discriminate|now apply IH].
Qed.

Lemma check_constraints_shape (num_vars i : nat) (constraints : list constraint)
    (r : validation) :
  check_constraints num_vars i constraints = Return r ->
  (exists reason, r = invalid reason) \/ r = well_formed num_vars.
Proof.
  revert i; induction constraints as [|c rest IH]; intros i H; simpl in H.
  - injection H as <-. now right.
  - destruct (truthy (strip (coefficients c))); simpl in H;
      [|injection H as <-; left; eauto].
    destruct (parse_coeffs (coefficients c)) as [l|e]; simpl in H; [|discriminate].
    destruct (length l =? num_vars)%nat; simpl in H;
      [|injection H as <-; left; eauto].
    destruct (rhs c); [now apply (IH (S i))|injection H as <-; left; eauto].
Qed.

Lemma check_constraints_valid (num_vars i : nat) (constraints : list constraint)
    (r : validation) :
  check_constraints num_vars i constraints = Return r ->
  valid r = true ->
  Forall (passes num_vars) constraints.
Proof.
  revert i; induction constraints as [|c rest IH]; intros i H Hv; simpl in H.
  - constructor.
  - destruct (truthy (strip (coefficients c))) eqn:Hc; simpl in H;
      [|injection H as <-; discriminate].
    destruct (parse_coeffs (coefficients c)) as [l|e] eqn:Hl; simpl in H; [|discriminate].
    destruct (length l =? num_vars)%nat eqn:Hn; simpl in H;
      [|injection H as <-; discriminate].
    destruct (rhs c) as [x|] eqn:Hr; [|injection H as <-; discriminate].
    constructor; [|now apply (IH (S i))].
    repeat split; [assumption| |congruence].
    exists l. split; [exact Hl|now apply Nat.eqb_eq].
Qed.

Lemma check_constraints_forget_rhs (num_vars i : nat) (constraints : list constraint) :
  check_constraints num_vars i (map forget_rhs constraints)
  = check_constraints num_vars i constraints.
Proof.
  revert i; induction constraints as [|c rest IH]; intros i; simpl; [reflexivity|].
  destruct (truthy (strip (coefficients c))); simpl; [|reflexivity].
  destruct (parse_coeffs (coefficients c)) as [l|e]; simpl; [|reflexivity].
  destruct (length l =? num_vars)%nat; simpl; [|reflexivity].
  destruct (rhs c); [apply IH|reflexivity].
Qed.

(** [validate_problem_input] always returns, and what it returns is either
    the invalid dict with a reason or the valid dict with a count. *)
Lemma validate_returns (obj_coeffs : string) (constraints : list constraint) :
  exists r, validate_problem_input obj_coeffs constraints = Return r
            /\ ((exists reason, r = invalid reason) \/ (exists n, r = well_formed n)).
Proof.
  unfold validate_problem_input.
  destruct (validate_body obj_coeffs constraints) as [r|e] eqn:Hbody.
  - exists r. split; [reflexivity|].
    unfold validate_body in Hbody.
    destruct (parse_coeffs obj_coeffs) as [[|v vs]|e]; simpl in Hbody.
    + injection Hbody as <-. left; eauto.
    + apply check_constraints_shape in Hbody as [?| ->]; [now left|right; eauto].
    + discriminate.
  - destruct e; eexists; (split; [reflexivity|left; eauto]).
Qed.

(** When the answer is valid, the objective parsed to a non-empty list, the
    count reported is its length, and every constraint passed. *)
Lemma validate_valid_inv (obj_coeffs : string) (constraints : list constraint)
    (r : validation) :
  validate_problem_input obj_coeffs constraints = Return r ->
  valid r = true ->
  exists obj_list,
    parse_coeffs obj_coeffs = Return obj_list
    /\ obj_list <> []
    /\ r = well_formed (length obj_list)
    /\ Forall (passes (length obj_list)) constraints.
Proof.
  unfold validate_problem_input, validate_body. intros H Hv.
  destruct (parse_coeffs obj_coeffs) as [[|v vs]|e]; simpl in H.
  - injection H as <-. discriminate.
  - destruct (check_constraints (S (length vs)) 0 constraints) as [r'|e] eqn:Hc.
    + injection H as ->. exists (v :: vs). split; [reflexivity|].
      split; [discriminate|]. split.
      * destruct (check_constraints_shape _ _ _ _ Hc) as [[reason ->]|Hr];
          [discriminate|exact Hr].
      * exact (check_constraints_valid _ _ _ _ Hc Hv).
    + destruct e; injection H as <-; discriminate.
  - destruct e; injection H as <-; discriminate.
Qed.

(** With no constraint to check, [validate_problem_input] itself answers
    valid as soon as the objective parses to a non-empty list: the request
    for one constraint at least is made by its callers. *)
Lemma validate_without_constraints (obj_coeffs : string) (v : float) (vs : list float) :
  parse_coeffs obj_coeffs = Return (v :: vs) ->
  validate_problem_input obj_coeffs [] = Return (well_formed (S (length vs))).
Proof.
  intros Hobj. unfold validate_problem_input, validate_body. rewrite Hobj. reflexivity.
Qed.

(** An answer that is not valid carries a reason. *)
Lemma validate_invalid (obj_coeffs : string) (constraints : list constraint) :
  (forall r, validate_problem_input obj_coeffs constraints = Return r -> valid r <> true) ->
  exists reason, validate_problem_input obj_coeffs constraints = Return (invalid reason).
Proof.
  intros H.
  destruct (validate_returns obj_coeffs constraints) as [r [Hr [[reason ->]|[n ->]]]].
  - now exists reason.
  - exfalso. now apply (H _ Hr).
Qed.

End ValidationFacts.

(** ** Properties of validate_problem_input *)

Section ValidationProperties.
Context {B : Builtins}.

Lemma parse_coeffs_numeric (s : string) (l : list float) :
  parse_coeffs s = Return l -> ~ non_numeric_token s.
Proof.
  intros Hl (tok & e & Hin & Hraise).
  apply filter_In in Hin as [Hin Htok].
  destruct (float_list_tokens _ _ Hl tok Hin Htok) as [v Hv]. congruence.
Qed.

(** C3. When the objective text and some constraint's coefficient text both
    parse and the two lists differ in length, validation answers invalid
    with a reason; and a valid answer is given only if every constraint's
    coefficient text parses to as many entries as the objective's. *)
Theorem coefficient_count_checked (obj_coeffs : string) (constraints : list constraint) :
  (forall obj_list c l,
      parse_coeffs obj_coeffs = Return obj_list ->
      In c constraints ->
      parse_coeffs (coefficients c) = Return l ->
      length l <> length obj_list ->
      exists reason, validate_problem_input obj_coeffs constraints = Return (invalid reason))
  /\ (forall r,
         validate_problem_input obj_coeffs constraints = Return r ->
         valid r = true ->
         exists obj_list,
           parse_coeffs obj_coeffs = Return obj_list
           /\ Forall (fun c => exists l, parse_coeffs (coefficients c) = Return l
                                         /\ length l = length obj_list) constraints).
Proof.
  assert (Honly : forall r,
             validate_problem_input obj_coeffs constraints = Return r ->
             valid r = true ->
             exists obj_list,
               parse_coeffs obj_coeffs = Return obj_list
               /\ Forall (fun c => exists l, parse_coeffs (coefficients c) = Return l
                                             /\ length l = length obj_list) constraints).
  { intros r Hr Hv.
    destruct (validate_valid_inv _ _ _ Hr Hv) as (obj_list & Hobj & _ & _ & Hall).
    exists obj_list. split; [exact Hobj|].
    eapply Forall_impl; [|exact Hall]. intros c (_ & Hc & _). exact Hc. }
  split; [|exact Honly].
  intros obj_list c l Hobj Hin Hl Hneq.
  apply validate_invalid. intros r Hr Hv.
  destruct (Honly r Hr Hv) as (obj_list' & Hobj' & Hall).
  rewrite Forall_forall in Hall. destruct (Hall c Hin) as (l' & Hl' & Hlen).
  congruence.
Qed.

(** C4. When the objective text or some constraint's coefficient text holds
    a non-blank token that [float] refuses, or the objective text holds no
    non-blank token at all, validation returns the invalid dict with a
    reason; no exception leaves the function. *)
Theorem malformed_input_rejected (obj_coeffs : string) (constraints : list constraint) :
  non_numeric_token obj_coeffs
  \/ non_blank_tokens obj_coeffs = []
  \/ Exists (fun c => non_numeric_token (coefficients c)) constraints ->
  exists reason, validate_problem_input obj_coeffs constraints = Return (invalid reason).
Proof.
  intros Hbad. apply validate_invalid. intros r Hr Hv.
  destruct (validate_valid_inv _ _ _ Hr Hv) as (obj_list & Hobj & Hne & _ & Hall).
  destruct Hbad as [Htok|[Hblank|Hex]].
  - exact (parse_coeffs_numeric _ _ Hobj Htok).
  - unfold parse_coeffs in Hobj. rewrite (float_list_blank _ Hblank) in Hobj. congruence.
  - apply Exists_exists in Hex as (c & Hin & Htok).
    rewrite Forall_forall in Hall. destruct (Hall c Hin) as (_ & (l & Hl & _) & _).
    exact (parse_coeffs_numeric _ _ Hl Htok).
Qed.

(** C6, as amended. Validation looks at a right-hand side only to see that
    it is there: when some constraint's right-hand side is [None] the answer
    is invalid with a reason, a valid answer is given only if every
    right-hand side is present, and the number held by a right-hand side
    never changes the answer. *)
Theorem missing_rhs_checked (obj_coeffs : string) (constraints : list constraint) :
  (forall c, In c constraints -> rhs c = None ->
             exists reason, validate_problem_input obj_coeffs constraints = Return (invalid reason))
  /\ (forall r, validate_problem_input obj_coeffs constraints = Return r ->
                valid r = true ->
                Forall (fun c => rhs c <> None) constraints)
  /\ validate_problem_input obj_coeffs (map forget_rhs constraints)
     = validate_problem_input obj_coeffs constraints.
Proof.
  assert (Honly : forall r, validate_problem_input obj_coeffs constraints = Return r ->
                            valid r = true ->
                            Forall (fun c => rhs c <> None) constraints).
  { intros r Hr Hv.
    destruct (validate_valid_inv _ _ _ Hr Hv) as (obj_list & _ & _ & _ & Hall).
    eapply Forall_impl; [|exact Hall]. intros c (_ & _ & Hc). exact Hc. }
  split; [|split; [exact Honly|]].
  - intros c Hin Hnone. apply validate_invalid. intros r Hr Hv.
    pose proof (Honly r Hr Hv) as Hall. rewrite Forall_forall in Hall.
    now apply (Hall c Hin).
  - unfold validate_problem_input, validate_body.
    destruct (parse_coeffs obj_coeffs) as [[|v vs]|e]; simpl; try reflexivity.
    now rewrite check_constraints_forget_rhs.
Qed.

(** C9. Whatever the objective text and the constraint records are,
    [validate_problem_input] returns a dict and raises nothing; the dict
    has the key 'valid', with the key 'num_variables' when it is true and
    the key 'error' when it is false. *)
Theorem validate_never_raises (obj_coeffs : string) (constraints : list constraint) :
  exists r,
    validate_problem_input obj_coeffs constraints = Return r
    /\ if valid r
       then exists n, num_variables r = Some n
       else exists reason, error r = Some reason.
Proof.
  destruct (validate_returns obj_coeffs constraints) as [r [Hr [[reason ->]|[n ->]]]];
    eexists; (split; [exact Hr|]); simpl; eauto.
Qed.

(** C10. A coefficient text that parses gives as many coefficients as it
    has non-blank tokens, and so does the count a valid answer reports; the
    texts '3,,2' and '3, , 2' are read exactly as '3,2' is, and are accepted
    as two coefficients once [float] accepts '3' and '2'. *)
Theorem blank_tokens_dropped :
  (forall s l, parse_coeffs s = Return l -> length l = length (non_blank_tokens s))
  /\ (forall s constraints n,
         validate_problem_input s constraints = Return (well_formed n) ->
         n = length (non_blank_tokens s))
  /\ (forall constraints,
         validate_problem_input "3,,2" constraints = validate_problem_input "3,2" constraints
         /\ validate_problem_input "3, , 2" constraints = validate_problem_input "3,2" constraints)
  /\ (forall a b,
         py_float "3" = Return a -> py_float "2" = Return b ->
         parse_coeffs "3,,2" = Return [a; b]
         /\ parse_coeffs "3, , 2" = Return [a; b]
         /\ validate_problem_input "3,,2" [] = Return (well_formed 2)
         /\ validate_problem_input "3, , 2" [] = Return (well_formed 2)).
Proof.
  split; [|split; [|split]].
  - intros s l Hl. exact (float_list_length _ _ Hl).
  - intros s constraints n Hr.
    destruct (validate_valid_inv _ _ _ Hr eq_refl) as (obj_list & Hobj & _ & Hn & _).
    injection Hn as ->. exact (float_list_length _ _ Hobj).
  - intros constraints. split; reflexivity.
  - intros a b Ha Hb.
    assert (H1 : parse_coeffs "3,,2" = Return [a; b]).
    { change (parse_coeffs "3,,2") with (float_list ["3"; ""; "2"]).
      cbn [float_list].
      change (strip "3") with "3"; change (strip "") with ""; change (strip "2") with "2".
      cbn [truthy]. rewrite Ha, Hb. reflexivity. }
    assert (H2 : parse_coeffs "3, , 2" = Return [a; b]).
    { change (parse_coeffs "3, , 2") with (float_list ["3"; " "; " 2"]).
      cbn [float_list].
      change (strip "3") with "3"; change (strip " ") with ""; change (strip " 2") with "2".
      cbn [truthy]. rewrite Ha, Hb. reflexivity. }
    repeat split; try assumption;
      unfold validate_problem_input, validate_body;
      [rewrite H1|rewrite H2]; reflexivity.
Qed.

End ValidationProperties.

(** C6 as stated fails: the objective '3, 2' with the one constraint
    '1, 1' whose right-hand side is infinite is judged valid. *)
Lemma infinite_rhs_accepted :
  some_rhs_not_finite [row "1, 1" (Some infinity)] = true
  /\ validate_problem_input "3, 2" [row "1, 1" (Some infinity)] = Return (well_formed 2).
Proof. split; reflexivity. Qed.

(** The objective '3, 2' with a second constraint of one coefficient. *)
Lemma coefficient_count_checked_witness :
  parse_coeffs "3, 2" = Return [3%float; 2%float]
  /\ parse_coeffs "4" = Return [4%float]
  /\ exists reason,
       validate_problem_input "3, 2"
         [row "2, 1" (Some 100%float); row "4" (Some 80%float)]
       = Return (invalid reason).
Proof.
  split; [reflexivity|split; [reflexivity|]].
  apply (proj1 (coefficient_count_checked "3, 2"
                  [row "2, 1" (Some 100%float); row "4" (Some 80%float)])
           [3%float; 2%float] (row "4" (Some 80%float)) [4%float]).
  - reflexivity.
  - right; left; reflexivity.
  - reflexivity.
  - simpl; lia.
Defined.

(** The objective '3, abc': the token ' abc' is not blank and not a number. *)
Lemma malformed_input_rejected_witness :
  py_float (strip " abc") = Raise (ValueError "could not convert string to float: 'abc'")
  /\ exists reason,
       validate_problem_input "3, abc" [row "1, 1" (Some 1%float)] = Return (invalid reason).
Proof.
  split; [reflexivity|].
  apply (malformed_input_rejected "3, abc" [row "1, 1" (Some 1%float)]).
  left. exists " abc", (ValueError "could not convert string to float: 'abc'").
  split; [right; left; reflexivity|reflexivity].
Defined.

(** The objective '3, 2' with a constraint whose right-hand side is [None]. *)
Lemma missing_rhs_checked_witness :
  exists reason,
    validate_problem_input "3, 2" [row "1, 1" None] = Return (invalid reason).
Proof.
  apply (proj1 (missing_rhs_checked "3, 2" [row "1, 1" None]) (row "1, 1" None)).
  - left; reflexivity.
  - reflexivity.
Defined.

(** With [decimal_float], '3,,2' and '3, , 2' are two coefficients. *)
Lemma blank_tokens_dropped_witness :
  py_float "3" = Return 3%float /\ py_float "2" = Return 2%float
  /\ parse_coeffs "3,,2" = Return [3%float; 2%float]
  /\ parse_coeffs "3, , 2" = Return [3%float; 2%float]
  /\ validate_problem_input "3,,2" [] = Return (well_formed 2)
  /\ validate_problem_input "3, , 2" [] = Return (well_formed 2).
Proof.
  split; [reflexivity|split; [reflexivity|]].
  apply (proj2 (proj2 (proj2 blank_tokens_dropped)) 3%float 2%float); reflexivity.
Defined.

(** ** Facts about the page monad and display_solution *)

Ltac flatten_log := cbn [app]; repeat (rewrite <- app_assoc; cbn [app]).
Ltac step_display := cbn -[show_optimal show_insights show_steps].

Section PresentationFacts.
Context {B : Builtins} {P : Payloads}.

Lemma for_each_emit {A : Type} (xs : list A) (body : A -> ui unit) (g : A -> event) :
  (forall x, body x = emit (g x)) ->
  for_each xs body = (map g xs, Return tt).
Proof.
  intros Hb. induction xs as [|x rest IH]; simpl; [reflexivity|].
  rewrite Hb, IH. reflexivity.
Qed.

(** Showing the steps raises nothing. *)
Lemma show_steps_returns (i : nat) (ss : list step) :
  ending (show_steps i ss) = Return tt.
Proof.
  revert i; induction ss as [|s rest IH]; intros i; simpl; [reflexivity|].
  destruct (step_table s), (step_figure s); simpl;
    specialize (IH (S i)); destruct (show_steps (S i) rest) as [log r];
    simpl in *; now subst.
Qed.

Lemma show_optimal_drawn (r : result) (method : string)
    (vars : list (string * float)) (z : float) :
  variables r = Some vars -> objective_value r = Some z ->
  exists before after,
    show_optimal r method = ((before ++ map write_variable vars ++ after)%list, Return tt)
    /\ In (st_write ("Z = " ++ format_4f z)) after.
Proof.
  intros Hv Hz. unfold show_optimal. rewrite Hv, Hz. cbn.
  rewrite (for_each_emit vars _ write_variable) by (intros [var value]; reflexivity).
  cbn.
  destruct (method =? "Graphical Method"); [|destruct (method =? "Simplex Method")]; cbn.
  all: eexists [_; _; _; _]; eexists; (split; [reflexivity|]).
  all: right; right; left; reflexivity.
Qed.

Lemma show_optimal_no_variables (r : result) (method : string) :
  variables r = None -> ending (show_optimal r method) = Raise (KeyError "variables").
Proof. intros Hv. unfold show_optimal. rewrite Hv. reflexivity. Qed.

Lemma show_optimal_no_objective_value (r : result) (method : string)
    (vars : list (string * float)) :
  variables r = Some vars -> objective_value r = None ->
  ending (show_optimal r method) = Raise (KeyError "objective_value").
Proof.
  intros Hv Hz. unfold show_optimal. rewrite Hv, Hz. cbn.
  rewrite (for_each_emit vars _ write_variable) by (intros [var value]; reflexivity).
  reflexivity.
Qed.

(** With status 'optimal', [display_solution] ends the way [show_optimal]
    does unless that one returns. *)
Lemma display_optimal_raises (r : result) (method : string) (e : exn) :
  status r = Some "optimal" ->
  ending (show_optimal r method) = Raise e ->
  ending (display_solution r method) = Raise e.
Proof.
  intros Hs He. unfold display_solution, status_is. rewrite Hs. step_display.
  destruct (show_optimal r method) as [olog ores]. simpl in He. subst ores.
  destruct (steps r) as [ss|]; step_display; [|reflexivity].
  pose proof (show_steps_returns 1 ss) as Hss.
  destruct (show_steps 1 ss) as [slog sres]. simpl in Hss. subst sres. reflexivity.
Qed.

Lemma display_optimal (r : result) (method : string)
    (vars : list (string * float)) (z : float) :
  status r = Some "optimal" -> variables r = Some vars -> objective_value r = Some z ->
  exists before after,
    display_solution r method = ((before ++ map write_variable vars ++ after)%list, Return tt)
    /\ In (st_write ("Z = " ++ format_4f z)) after.
Proof.
  intros Hs Hv Hz.
  destruct (show_optimal_drawn r method vars z Hv Hz) as (before & after & Ho & Hin).
  unfold display_solution, status_is. rewrite Hs. step_display.
  destruct (steps r) as [ss|]; step_display.
  - pose proof (show_steps_returns 1 ss) as Hss.
    destruct (show_steps 1 ss) as [slog sres]. simpl in Hss. subst sres. step_display.
    rewrite Ho. step_display. unfold show_insights.
    erewrite for_each_emit by (intros x; reflexivity). cbn.
    eexists (_ :: slog ++ _ :: before)%list, (after ++ _)%list.
    split; [|apply in_or_app; left; exact Hin].
    flatten_log. reflexivity.
  - rewrite Ho. step_display. unfold show_insights.
    erewrite for_each_emit by (intros x; reflexivity). cbn.
    eexists (_ :: before)%list, (after ++ _)%list.
    split; [|apply in_or_app; left; exact Hin].
    flatten_log. reflexivity.
Qed.

(** The keys 'variables' and 'objective_value' are not read unless the
    status is 'optimal'. *)
Lemma display_ignores_solution (r : result) (method : string)
    (vars : option (list (string * float))) (z : option float) :
  status r <> Some "optimal" ->
  display_solution (with_solution r vars z) method = display_solution r method.
Proof.
  intros Hs. destruct r as [st msg stps vars0 z0]. simpl in Hs.
  unfold display_solution, with_solution, status_is, getitem. cbn.
  destruct st as [s|]; cbn; [|reflexivity].
  destruct (s =? "error"); cbn; [reflexivity|].
  assert (Ho : (s =? "optimal") = false) by (apply String.eqb_neq; congruence).
  destruct stps as [ss|]; cbn.
  - destruct (show_steps 1 ss) as [l [[]|e]]; cbn; [|reflexivity].
    rewrite Ho. reflexivity.
  - rewrite Ho. reflexivity.
Qed.

(** The key 'message' is not read unless the status is 'error'. *)
Lemma display_ignores_message (r : result) (method : string) (msg : option string) :
  status r <> Some "error" ->
  display_solution (with_message r msg) method = display_solution r method.
Proof.
  intros Hs. destruct r as [st msg0 stps vars z]. simpl in Hs.
  unfold display_solution, with_message, status_is. cbn -[show_optimal show_insights].
  destruct st as [s|]; cbn -[show_optimal show_insights]; [|reflexivity].
  assert (He : (s =? "error") = false) by (apply String.eqb_neq; congruence).
  rewrite He. reflexivity.
Qed.

(** What is drawn for the status 'unbounded'. *)
Lemma display_unbounded (r : result) (method : string) :
  status r = Some "unbounded" ->
  exists before,
    display_solution r method
    = ((before ++
        [st_subheader "Final Solution";
         st_warning "⚠️ The problem is unbounded.";
         st_markdown "**Meaning:** The objective function can be increased indefinitely.";
         st_markdown "**Cause:** The feasible region extends infinitely in the direction of optimization.";
         st_markdown "**Action:** Check if constraints are missing or incorrectly formulated."])%list,
       Return tt).
Proof.
  intros Hs. unfold display_solution, status_is. rewrite Hs. step_display.
  destruct (steps r) as [ss|]; step_display.
  - pose proof (show_steps_returns 1 ss) as Hss.
    destruct (show_steps 1 ss) as [slog sres]. simpl in Hss. subst sres. step_display.
    exists (st_subheader "Step-by-Step Solution" :: slog). flatten_log. reflexivity.
  - exists []. reflexivity.
Qed.

(** What is drawn for the status 'infeasible'. *)
Lemma display_infeasible (r : result) (method : string) :
  status r = Some "infeasible" ->
  exists before,
    display_solution r method
    = ((before ++
        [st_subheader "Final Solution";
         st_error "❌ The problem is infeasible.";
         st_markdown "**Meaning:** There is no solution that satisfies all constraints simultaneously.";
         st_markdown "**Cause:** Constraints are contradictory or too restrictive.";
         st_markdown "**Action:** Review constraints for conflicts or relax some requirements."])%list,
       Return tt).
Proof.
  intros Hs. unfold display_solution, status_is. rewrite Hs. step_display.
  destruct (steps r) as [ss|]; step_display.
  - pose proof (show_steps_returns 1 ss) as Hss.
    destruct (show_steps 1 ss) as [slog sres]. simpl in Hss. subst sres. step_display.
    exists (st_subheader "Step-by-Step Solution" :: slog). flatten_log. reflexivity.
  - exists []. reflexivity.
Qed.

Lemma unbounded_displayed (r : result) (method : string) :
  status r = Some "unbounded" ->
  ending (display_solution r method) = Return tt
  /\ In (st_warning "⚠️ The problem is unbounded.") (drawn (display_solution r method)).
Proof.
  intros Hs. destruct (display_unbounded r method Hs) as [before ->].
  split; [reflexivity|].
  cbn [drawn fst]. apply in_or_app; right. right; left; reflexivity.
Qed.

Lemma infeasible_displayed (r : result) (method : string) :
  status r = Some "infeasible" ->
  ending (display_solution r method) = Return tt
  /\ In (st_error "❌ The problem is infeasible.") (drawn (display_solution r method)).
Proof.
  intros Hs. destruct (display_infeasible r method Hs) as [before ->].
  split; [reflexivity|].
  cbn [drawn fst]. apply in_or_app; right. right; left; reflexivity.
Qed.

Lemma display_error (r : result) (method msg : string) :
  status r = Some "error" -> message r = Some msg ->
  display_solution r method = ([st_error msg], Return tt).
Proof.
  intros Hs Hm. unfold display_solution, status_is. rewrite Hs, Hm. reflexivity.
Qed.

End PresentationFacts.

(** ** Properties of display_solution *)

Section PresentationProperties.
Context {B : Builtins} {P : Payloads}.

(** C7. [display_solution] reads and shows the keys 'variables' and
    'objective_value' exactly when the status is 'optimal'. With another
    status (or none) what it does is the same whatever the two keys hold,
    present or absent. With the status 'optimal' and both keys present it
    returns, having written one line per variable and the line of the
    objective value; with one of the keys absent it raises the [KeyError]
    of that key. *)
Theorem solution_read_iff_optimal (r : result) (method : string) :
  (status r <> Some "optimal" ->
   forall vars z,
     display_solution (with_solution r vars z) method = display_solution r method)
  /\ (status r = Some "optimal" ->
      (forall vars z,
          variables r = Some vars -> objective_value r = Some z ->
          ending (display_solution r method) = Return tt
          /\ (forall var value,
                 In (var, value) vars ->
                 In (st_write (var ++ " = " ++ format_4f value))
                    (drawn (display_solution r method)))
          /\ In (st_write ("Z = " ++ format_4f z)) (drawn (display_solution r method)))
      /\ (variables r = None ->
          ending (display_solution r method) = Raise (KeyError "variables"))
      /\ (variables r <> None -> objective_value r = None ->
          ending (display_solution r method) = Raise (KeyError "objective_value"))).
Proof.
  split; [intros Hs vars z; now apply display_ignores_solution|].
  intros Hs. split; [|split].
  - intros vars z Hv Hz.
    destruct (display_optimal r method vars z Hs Hv Hz) as (before & after & -> & Hin).
    split; [reflexivity|]. cbn [drawn fst]. split.
    + intros var value Hvar.
      apply in_or_app; right. apply in_or_app; left.
      exact (in_map write_variable vars (var, value) Hvar).
    + apply in_or_app; right. apply in_or_app; right. exact Hin.
  - intros Hv. apply display_optimal_raises; [exact Hs|].
    now apply show_optimal_no_variables.
  - intros Hv Hz. destruct (variables r) as [vars|] eqn:Hvars; [|congruence].
    apply display_optimal_raises; [exact Hs|].
    now apply (show_optimal_no_objective_value r method vars).
Qed.

(** C8, as amended. With the status 'error' the message is the one thing
    drawn. With the status 'unbounded' or 'infeasible' the key 'message' is
    not read: the same explanation, fixed in the code, is drawn whatever
    the key holds. *)
Theorem message_shown_for_error_only (r : result) (method : string) :
  (status r = Some "error" ->
   forall msg, message r = Some msg ->
               display_solution r method = ([st_error msg], Return tt))
  /\ (status r = Some "unbounded" \/ status r = Some "infeasible" ->
      (forall msg, display_solution (with_message r msg) method = display_solution r method)
      /\ ending (display_solution r method) = Return tt
      /\ (status r = Some "unbounded" ->
          In (st_warning "⚠️ The problem is unbounded.") (drawn (display_solution r method)))
      /\ (status r = Some "infeasible" ->
          In (st_error "❌ The problem is infeasible.") (drawn (display_solution r method)))).
Proof.
  split; [intros Hs msg Hm; now apply display_error|].
  intros Hs. split; [|split; [|split]].
  - intros msg. apply display_ignores_message. destruct Hs as [Hs|Hs]; congruence.
  - destruct Hs as [Hs|Hs];
      [apply (unbounded_displayed r method Hs)|apply (infeasible_displayed r method Hs)].
  - intros Hu. apply (unbounded_displayed r method Hu).
  - intros Hi. apply (infeasible_displayed r method Hi).
Qed.

End PresentationProperties.

(** The simplex result of the samples: both keys are present. *)
Lemma solution_read_iff_optimal_witness :
  ending (display_solution sample_optimal "Simplex Method") = Return tt
  /\ (forall var value,
         In (var, value) [("x1", 40%float); ("x2", 20%float)] ->
         In (st_write (var ++ " = " ++ format_4f value))
            (drawn (display_solution sample_optimal "Simplex Method")))
  /\ In (st_write ("Z = " ++ format_4f 160%float))
        (drawn (display_solution sample_optimal "Simplex Method")).
Proof.
  apply (proj1 (proj2 (solution_read_iff_optimal sample_optimal "Simplex Method") eq_refl)
           [("x1", 40%float); ("x2", 20%float)] 160%float); reflexivity.
Defined.

(** C8 as stated fails: for the unbounded and the infeasible sample, no
    text on the page contains the message of the result. *)
Lemma message_not_shown :
  (status sample_unbounded = Some "unbounded"
   /\ message sample_unbounded = Some "No leaving row for x1"
   /\ shows (drawn (display_solution sample_unbounded "Simplex Method"))
            "No leaving row for x1" = false)
  /\ (status sample_infeasible = Some "infeasible"
      /\ message sample_infeasible = Some "Artificial variable a1 stays basic"
      /\ shows (drawn (display_solution sample_infeasible "Big M Method"))
               "Artificial variable a1 stays basic" = false).
Proof. repeat split; reflexivity. Qed.

(** The error sample, and the unbounded sample with another message. *)
Lemma message_shown_for_error_only_witness :
  display_solution sample_error "Simplex Method"
  = ([st_error "iteration limit exceeded"], Return tt)
  /\ display_solution (with_message sample_unbounded (Some "another text")) "Simplex Method"
     = display_solution sample_unbounded "Simplex Method".
Proof.
  split.
  - apply (proj1 (message_shown_for_error_only sample_error "Simplex Method") eq_refl
             "iteration limit exceeded" eq_refl).
  - apply (proj1 (proj2 (message_shown_for_error_only sample_unbounded "Simplex Method")
                    (or_introl eq_refl)) (Some "another text")).
Defined.

(** ** Facts about solve_problem *)

Section SolveFacts.
Context {B : Builtins} {P : Payloads} {K : Backend}.

Lemma solve_problem_returns (problem_type method obj_coeffs : string)
    (constraints : list constraint) (non_negativity : bool) :
  ending (solve_problem problem_type method obj_coeffs constraints non_negativity)
  = Return tt.
Proof.
  unfold solve_problem, try_except.
  destruct (solve_body problem_type method obj_coeffs constraints non_negativity)
    as [log [[]|e]]; reflexivity.
Qed.

Lemma solve_problem_catches (problem_type method obj_coeffs : string)
    (constraints : list constraint) (non_negativity : bool) (e : exn) :
  ending (solve_body problem_type method obj_coeffs constraints non_negativity) = Raise e ->
  solve_problem problem_type method obj_coeffs constraints non_negativity
  = ((drawn (solve_body problem_type method obj_coeffs constraints non_negativity)
      ++ [error_line e])%list, Return tt).
Proof.
  unfold solve_problem, try_except.
  destruct (solve_body problem_type method obj_coeffs constraints non_negativity)
    as [log r]; simpl; intros ->. reflexivity.
Qed.

Lemma solve_problem_passes (problem_type method obj_coeffs : string)
    (constraints : list constraint) (non_negativity : bool) :
  ending (solve_body problem_type method obj_coeffs constraints non_negativity) = Return tt ->
  solve_problem problem_type method obj_coeffs constraints non_negativity
  = solve_body problem_type method obj_coeffs constraints non_negativity.
Proof.
  unfold solve_problem, try_except.
  destruct (solve_body problem_type method obj_coeffs constraints non_negativity)
    as [log r]; simpl; intros ->. reflexivity.
Qed.

(** Past the parse, the error check, the formatter and the guard of the
    graphical method, [solve_body] calls the solver of the method and
    hands its result to [display_solution]. *)
Lemma solve_body_runs (problem_type method obj_coeffs : string)
    (constraints : list constraint) (non_negativity : bool)
    (p : parsed_problem) (formatted : string) :
  parse_problem problem_type obj_coeffs constraints non_negativity = Return p ->
  error_set p = None ->
  format_problem p = Return formatted ->
  (method = "Graphical Method" -> length (objective p) <= 2) ->
  solve_body problem_type method obj_coeffs constraints non_negativity
  = match solve (solver_of method) p with
    | Return r =>
        ((heading formatted method
          ++ solver_solve (solver_of method) :: drawn (display_solution r method))%list,
         ending (display_solution r method))
    | Raise e =>
        ((heading formatted method ++ [solver_solve (solver_of method)])%list, Raise e)
    end.
Proof.
  intros Hparse Herr Hformat Hguard.
  unfold solve_body, solver_of, lift. rewrite Hparse. cbn -[display_solution Nat.ltb].
  rewrite Herr, Hformat. cbn -[display_solution Nat.ltb].
  destruct (method =? "Simplex Method").
  - destruct (solve SimplexSolver p) as [r|e]; cbn -[display_solution Nat.ltb]; [|reflexivity].
    destruct (display_solution r method); reflexivity.
  - destruct (method =? "Graphical Method") eqn:Hg.
    + apply String.eqb_eq in Hg. specialize (Hguard Hg).
      replace (2 <? length (objective p))%nat with false
        by (symmetry; apply Nat.ltb_ge; exact Hguard).
      destruct (solve GraphicalSolver p) as [r|e]; cbn -[display_solution Nat.ltb]; [|reflexivity].
      destruct (display_solution r method); reflexivity.
    + destruct (solve BigMSolver p) as [r|e]; cbn -[display_solution Nat.ltb]; [|reflexivity].
      destruct (display_solution r method); reflexivity.
Qed.

(** The guard of the graphical method: more than two coefficients. *)
Lemma graphical_guard_rejects (problem_type obj_coeffs : string)
    (constraints : list constraint) (non_negativity : bool)
    (p : parsed_problem) (formatted : string) :
  parse_problem problem_type obj_coeffs constraints non_negativity = Return p ->
  error_set p = None ->
  format_problem p = Return formatted ->
  2 < length (objective p) ->
  solve_problem problem_type "Graphical Method" obj_coeffs constraints non_negativity
  = ((heading formatted "Graphical Method"
      ++ [st_error "Graphical method only supports problems with 2 variables."])%list,
     Return tt).
Proof.
  intros Hparse Herr Hformat Hlen.
  unfold solve_problem, solve_body, lift. rewrite Hparse. cbn -[display_solution Nat.ltb].
  rewrite Herr, Hformat. cbn -[display_solution Nat.ltb].
  replace (2 <? length (objective p))%nat with true
    by (symmetry; apply Nat.ltb_lt; exact Hlen).
  reflexivity.
Qed.

End SolveFacts.

(** ** Properties of solve_problem and of the buttons *)

Section SolveProperties.
Context {B : Builtins} {P : Payloads} {K : Backend}.

(** C1, where the code departs from it. Once the problem is parsed without
    error and formatted, the graphical method refuses a problem of more
    than two objective coefficients only: with fewer than two, the call of
    [GraphicalSolver.solve] is made. *)
Theorem graphical_solver_runs_below_two (problem_type obj_coeffs : string)
    (constraints : list constraint) (non_negativity : bool)
    (p : parsed_problem) (formatted : string) :
  parse_problem problem_type obj_coeffs constraints non_negativity = Return p ->
  error_set p = None ->
  format_problem p = Return formatted ->
  length (objective p) < 2 ->
  In (solver_solve GraphicalSolver)
     (drawn (solve_problem problem_type "Graphical Method" obj_coeffs constraints
                           non_negativity)).
Proof.
  intros Hparse Herr Hformat Hlen.
  assert (Hguard : "Graphical Method" = "Graphical Method" -> length (objective p) <= 2)
    by (intros _; lia).
  pose proof (solve_body_runs problem_type "Graphical Method" obj_coeffs constraints
                non_negativity p formatted Hparse Herr Hformat Hguard) as Hbody.
  change (solver_of "Graphical Method") with GraphicalSolver in Hbody.
  unfold solve_problem, try_except. rewrite Hbody.
  destruct (solve GraphicalSolver p) as [r|e].
  - destruct (ending (display_solution r "Graphical Method")) as [[]|e];
      cbn [drawn fst]; [|apply in_or_app; left];
      apply in_or_app; right; left; reflexivity.
  - cbn [drawn fst]. apply in_or_app; left. apply in_or_app; right; left; reflexivity.
Qed.

(** C2. [solve_problem] raises nothing. An exception of the parser, of the
    formatter, of the solver or of the display ends in one more error line
    on the page, which carries the text of the exception. A result of
    status 'unbounded' or 'infeasible' is displayed as such, and no error
    line is added for it. *)
Theorem solve_boundary (problem_type method obj_coeffs : string)
    (constraints : list constraint) (non_negativity : bool) :
  let run := solve_problem problem_type method obj_coeffs constraints non_negativity in
  let body := solve_body problem_type method obj_coeffs constraints non_negativity in
  ending run = Return tt
  /\ (forall e, ending body = Raise e -> drawn run = (drawn body ++ [error_line e])%list)
  /\ (forall e,
         parse_problem problem_type obj_coeffs constraints non_negativity = Raise e ->
         run = ([error_line e], Return tt))
  /\ (forall p formatted,
         parse_problem problem_type obj_coeffs constraints non_negativity = Return p ->
         error_set p = None ->
         format_problem p = Return formatted ->
         (method = "Graphical Method" -> length (objective p) <= 2) ->
         (forall e,
             solve (solver_of method) p = Raise e ->
             run = ((heading formatted method
                     ++ [solver_solve (solver_of method); error_line e])%list, Return tt))
         /\ (forall r,
                solve (solver_of method) p = Return r ->
                status r = Some "unbounded" \/ status r = Some "infeasible" ->
                run = ((heading formatted method
                        ++ solver_solve (solver_of method)
                           :: drawn (display_solution r method))%list, Return tt)
                /\ (status r = Some "unbounded" ->
                    In (st_warning "⚠️ The problem is unbounded.")
                       (drawn (display_solution r method)))
                /\ (status r = Some "infeasible" ->
                    In (st_error "❌ The problem is infeasible.")
                       (drawn (display_solution r method))))).
Proof.
  intros run body. subst run body.
  split; [apply solve_problem_returns|].
  split; [intros e He; now rewrite (solve_problem_catches _ _ _ _ _ e He)|].
  split.
  - intros e Hparse. unfold solve_problem, solve_body, lift. rewrite Hparse. reflexivity.
  - intros p formatted Hparse Herr Hformat Hguard.
    pose proof (solve_body_runs problem_type method obj_coeffs constraints
                  non_negativity p formatted Hparse Herr Hformat Hguard) as Hbody.
    split.
    + intros e He. rewrite He in Hbody.
      rewrite (solve_problem_catches _ _ _ _ _ e) by (rewrite Hbody; reflexivity).
      rewrite Hbody. cbn [drawn fst]. now rewrite <- app_assoc.
    + intros r Hr Hs. rewrite Hr in Hbody.
      assert (Hend : ending (display_solution r method) = Return tt).
      { destruct Hs as [Hs|Hs];
          [apply (unbounded_displayed r method Hs)|apply (infeasible_displayed r method Hs)]. }
      split; [|split].
      * rewrite solve_problem_passes by (rewrite Hbody; exact Hend).
        rewrite Hbody, Hend. reflexivity.
      * intros Hu. apply (unbounded_displayed r method Hu).
      * intros Hi. apply (infeasible_displayed r method Hi).
Qed.

(** C5. With an empty constraint list both buttons draw the request to
    enter at least one constraint and nothing else: neither
    [validate_problem_input] nor [solve_problem] is reached. The list is
    empty when every row of the form has an empty coefficient text, and
    the problem is reported well-formulated only for a list that is not
    empty. *)
Theorem empty_constraints_rejected (problem_type method obj_coeffs : string)
    (non_negativity : bool) :
  validate_clicked problem_type obj_coeffs [] = ([st_error please_enter], Return tt)
  /\ solve_clicked problem_type method obj_coeffs [] non_negativity
     = ([st_error please_enter], Return tt)
  /\ (forall rows, Forall (fun c => coefficients c = "") rows -> collect_constraints rows = [])
  /\ (forall constraints,
         In (st_success "✅ Problem is well-formulated!")
            (drawn (validate_clicked problem_type obj_coeffs constraints)) ->
         constraints <> []).
Proof.
  assert (Hv : validate_clicked problem_type obj_coeffs [] = ([st_error please_enter], Return tt)).
  { unfold validate_clicked. cbn [length Nat.ltb Nat.leb]. rewrite andb_false_r. reflexivity. }
  split; [exact Hv|]. split; [|split].
  - unfold solve_clicked. cbn [length Nat.ltb Nat.leb]. rewrite andb_false_r. reflexivity.
  - intros rows Hrows. induction Hrows as [|c rest Hc _ IH]; [reflexivity|].
    simpl. rewrite Hc. exact IH.
  - intros constraints Hin ->. rewrite Hv in Hin.
    destruct Hin as [Hin|[]]. discriminate.
Qed.

End SolveProperties.

(** The objective '5' under the graphical method: one variable, and the
    graphical solver is called. *)
Lemma graphical_solver_runs_below_two_witness :
  parse_problem "Maximize" "5" [row "1" (Some 10%float)] true
  = Return (sample_problem [5%float])
  /\ In (solver_solve GraphicalSolver)
        (drawn (solve_problem "Maximize" "Graphical Method" "5"
                              [row "1" (Some 10%float)] true)).
Proof.
  split; [reflexivity|].
  apply (graphical_solver_runs_below_two "Maximize" "5" [row "1" (Some 10%float)] true
           (sample_problem [5%float]) "Maximize Z").
  - reflexivity.
  - reflexivity.
  - reflexivity.
  - simpl; lia.
Defined.

(** The Big M solver of the samples raises, the graphical one reports an
    unbounded problem. *)
Lemma solve_boundary_witness :
  solve_problem "Maximize" "Big M Method" "3, 2" [row "1, 1" (Some 4%float)] true
  = ((heading "Maximize Z" "Big M Method"
      ++ [solver_solve BigMSolver; error_line (Exception "singular pivot")])%list,
     Return tt)
  /\ solve_problem "Maximize" "Graphical Method" "3, 2" [row "1, 1" (Some 1%float)] true
     = ((heading "Maximize Z" "Graphical Method"
         ++ solver_solve GraphicalSolver
            :: drawn (display_solution sample_unbounded "Graphical Method"))%list,
        Return tt).
Proof.
  split.
  - refine (proj1 (proj2 (proj2 (proj2
              (solve_boundary "Maximize" "Big M Method" "3, 2"
                              [row "1, 1" (Some 4%float)] true)))
              (sample_problem [3%float; 2%float]) "Maximize Z" _ _ _ _)
            (Exception "singular pivot") _);
      reflexivity.
  - refine (proj1 (proj2 (proj2 (proj2 (proj2
              (solve_boundary "Maximize" "Graphical Method" "3, 2"
                              [row "1, 1" (Some 1%float)] true)))
              (sample_problem [3%float; 2%float]) "Maximize Z" _ _ _ _)
            sample_unbounded _ _));
      try reflexivity.
    left; reflexivity.
Defined.

(** A list of one constraint, for which the problem is reported
    well-formulated. *)
Lemma empty_constraints_rejected_witness :
  In (st_success "✅ Problem is well-formulated!")
     (drawn (validate_clicked "Maximize" "3, 2" [row "1, 1" (Some 4%float)]))
  /\ [row "1, 1" (Some 4%float)] <> [].
Proof.
  assert (Hin : In (st_success "✅ Problem is well-formulated!")
                   (drawn (validate_clicked "Maximize" "3, 2" [row "1, 1" (Some 4%float)])))
    by (left; reflexivity).
  split; [exact Hin|].
  exact (proj2 (proj2 (proj2
           (empty_constraints_rejected "Maximize" "Simplex Method" "3, 2" true)))
           [row "1, 1" (Some 4%float)] Hin).
Defined.

(** * Part II: further properties of the same code *)

(** ** Further vocabulary *)

(** A constraint with its relation sign replaced. *)
Definition with_type (t : string) (c : constraint) : constraint :=
  {| coefficients := coefficients c; type := t; rhs := rhs c |}.

(** [sep.join(pieces)] for a separator of one character. *)
Fixpoint join (sep : ascii) (pieces : list string) : string :=
  match pieces with
  | [] => EmptyString
  | [piece] => piece
  | piece :: rest => piece ++ String sep (join sep rest)
  end.

(** The reason the two [except] clauses of [validate_problem_input] give
    for an exception. *)
Definition reason_of (e : exn) : string :=
  match e with
  | ValueError msg => "Invalid number format: " ++ msg
  | _ => "Validation error: " ++ str_of_exn e
  end.

(** ** More about the parsing of coefficient texts *)

Section ParsingFacts.
Context {B : Builtins}.
Local Open Scope outcome_scope.

Lemma split_not_nil (sep : ascii) (s : string) : split sep s <> [].
Proof.
  destruct s as [|c rest]; simpl; [discriminate|].
  destruct (Ascii.eqb c sep); [discriminate|].
  destruct (split sep rest); discriminate.
Qed.

Lemma split_app_sep (sep : ascii) (s1 s2 : string) :
  split sep (s1 ++ String sep s2) = (split sep s1 ++ split sep s2)%list.
Proof.
  induction s1 as [|c rest IH]; simpl.
  - now rewrite Ascii.eqb_refl.
  - destruct (Ascii.eqb c sep); rewrite IH; [reflexivity|].
    pose proof (split_not_nil sep rest) as Hne.
    destruct (split sep rest) as [|piece pieces]; [contradiction|reflexivity].
Qed.

Lemma float_list_app (l1 l2 : list string) :
  float_list (l1 ++ l2)
  = (a <- float_list l1 ;; b <- float_list l2 ;; Return (a ++ b)%list).
Proof.
  induction l1 as [|x rest IH]; simpl.
  - destruct (float_list l2); reflexivity.
  - destruct (truthy (strip x)); [|exact IH].
    destruct (py_float (strip x)) as [v|e]; simpl; [|reflexivity].
    rewrite IH. destruct (float_list rest) as [vs|e]; simpl; [|reflexivity].
    destruct (float_list l2); reflexivity.
Qed.

(** The exception of a token list is that of its first refused token. *)
Lemma float_list_first_refused (before after : list string) (tok : string) (e : exn) :
  Forall (fun x => truthy (strip x) = true -> exists v, py_float (strip x) = Return v) before ->
  truthy (strip tok) = true ->
  py_float (strip tok) = Raise e ->
  float_list (before ++ tok :: after) = Raise e.
Proof.
  intros Hbefore Htok He. induction Hbefore as [|x rest Hx _ IH]; simpl.
  - rewrite Htok, He. reflexivity.
  - destruct (truthy (strip x)); [|exact IH].
    destruct (Hx eq_refl) as [v ->]. simpl. rewrite IH. reflexivity.
Qed.

End ParsingFacts.

(** ** More about validate_problem_input *)

Section ValidationMore.
Context {B : Builtins}.

Lemma check_constraints_passes (num_vars i : nat) (constraints : list constraint) :
  Forall (passes num_vars) constraints ->
  check_constraints num_vars i constraints = Return (well_formed num_vars).
Proof.
  intros Hall. revert i. induction Hall as [|c rest Hc _ IH]; intros i; simpl.
  - reflexivity.
  - destruct Hc as (Hnb & (l & Hl & Hlen) & Hrhs).
    rewrite Hnb, Hl. simpl. rewrite <- Hlen, Nat.eqb_refl. simpl.
    destruct (rhs c); [rewrite Hlen; apply IH|contradiction].
Qed.

(** Constraints that pass are walked over; the index moves on by their number. *)
Lemma check_constraints_skip (num_vars i : nat) (good rest : list constraint) :
  Forall (passes num_vars) good ->
  check_constraints num_vars i (good ++ rest)
  = check_constraints num_vars (i + length good) rest.
Proof.
  intros Hall. revert i. induction Hall as [|c good' Hc _ IH]; intros i; simpl.
  - now rewrite Nat.add_0_r.
  - destruct Hc as (Hnb & (l & Hl & Hlen) & Hrhs).
    rewrite Hnb, Hl. simpl. rewrite Hlen, Nat.eqb_refl. simpl.
    destruct (rhs c); [|contradiction].
    rewrite IH. f_equal. lia.
Qed.

Lemma validate_accepts (obj_coeffs : string) (constraints : list constraint)
    (obj_list : list float) :
  parse_coeffs obj_coeffs = Return obj_list ->
  obj_list <> [] ->
  Forall (passes (length obj_list)) constraints ->
  validate_problem_input obj_coeffs constraints = Return (well_formed (length obj_list)).
Proof.
  intros Hobj Hne Hall. unfold validate_problem_input, validate_body. rewrite Hobj.
  destruct obj_list as [|v vs]; [contradiction|]. simpl in *.
  now rewrite (check_constraints_passes _ 0 _ Hall).
Qed.

(** The answer when the objective is fine and the constraints before the
    one at hand pass. *)
Lemma validate_up_to (obj_coeffs : string) (obj_list : list float)
    (good rest : list constraint) :
  parse_coeffs obj_coeffs = Return obj_list ->
  obj_list <> [] ->
  Forall (passes (length obj_list)) good ->
  validate_problem_input obj_coeffs (good ++ rest)
  = match check_constraints (length obj_list) (length good) rest with
    | Return r => Return r
    | Raise e => Return (invalid (reason_of e))
    end.
Proof.
  intros Hobj Hne Hgood. unfold validate_problem_input, validate_body. rewrite Hobj.
  destruct obj_list as [|v vs]; [contradiction|]. simpl in *.
  rewrite (check_constraints_skip _ 0 _ _ Hgood). simpl Nat.add.
  destruct (check_constraints (S (length vs)) (length good) rest) as [r|[m|k|m]];
    reflexivity.
Qed.

Lemma check_constraints_with_type (t : string) (num_vars i : nat)
    (constraints : list constraint) :
  check_constraints num_vars i (map (with_type t) constraints)
  = check_constraints num_vars i constraints.
Proof.
  revert i; induction constraints as [|c rest IH]; intros i; simpl; [reflexivity|].
  destruct (truthy (strip (coefficients c))); simpl; [|reflexivity].
  destruct (parse_coeffs (coefficients c)) as [l|e]; simpl; [|reflexivity].
  destruct (length l =? num_vars)%nat; simpl; [|reflexivity].
  destruct (rhs c); [apply IH|reflexivity].
Qed.

End ValidationMore.

Section ValidationExtras.
Context {B : Builtins}.
Local Open Scope outcome_scope.

(** X1. [validate_problem_input] answers valid with the count [n] exactly
    when the objective text parses to a list of [n] entries, [n] not zero,
    and every constraint has a coefficient text that is not blank and
    parses to [n] entries, and a right-hand side that is there. *)
Theorem validation_accepts_exactly (obj_coeffs : string) (constraints : list constraint)
    (n : nat) :
  validate_problem_input obj_coeffs constraints = Return (well_formed n)
  <-> exists obj_list,
        parse_coeffs obj_coeffs = Return obj_list
        /\ obj_list <> []
        /\ n = length obj_list
        /\ Forall (passes n) constraints.
Proof.
  split.
  - intros Hr.
    destruct (validate_valid_inv _ _ _ Hr eq_refl) as (obj_list & Hobj & Hne & Hn & Hall).
    injection Hn as ->. exists obj_list. repeat split; assumption.
  - intros (obj_list & Hobj & Hne & -> & Hall). now apply validate_accepts.
Qed.

(** X2. The reason names the first constraint that does not pass, counted
    from 1, and the first check that it fails, in the order: blank
    coefficient text, a token that [float] refuses, the number of
    coefficients, the missing right-hand side. *)
Theorem first_failing_constraint_reported (obj_coeffs : string) (obj_list : list float)
    (good rest : list constraint) (c : constraint) :
  parse_coeffs obj_coeffs = Return obj_list ->
  obj_list <> [] ->
  Forall (passes (length obj_list)) good ->
  let answer := validate_problem_input obj_coeffs (good ++ c :: rest) in
  let k := str_of_nat (length good + 1) in
  (truthy (strip (coefficients c)) = false ->
   answer = Return (invalid ("Empty coefficients in constraint " ++ k)))
  /\ (forall e,
         truthy (strip (coefficients c)) = true ->
         parse_coeffs (coefficients c) = Raise e ->
         answer = Return (invalid (reason_of e)))
  /\ (forall l,
         truthy (strip (coefficients c)) = true ->
         parse_coeffs (coefficients c) = Return l ->
         length l <> length obj_list ->
         answer = Return (invalid ("Constraint " ++ k ++ " has " ++ str_of_nat (length l)
                                   ++ " variables, expected "
                                   ++ str_of_nat (length obj_list))))
  /\ (forall l,
         truthy (strip (coefficients c)) = true ->
         parse_coeffs (coefficients c) = Return l ->
         length l = length obj_list ->
         rhs c = None ->
         answer = Return (invalid ("Missing RHS value in constraint " ++ k))).
Proof.
  intros Hobj Hne Hgood answer k. subst answer k.
  rewrite (validate_up_to _ _ _ _ Hobj Hne Hgood).
  split; [|split; [|split]].
  - intros Hblank. simpl. rewrite Hblank. reflexivity.
  - intros e Hnb He. simpl. rewrite Hnb, He. reflexivity.
  - intros l Hnb Hl Hlen. simpl. rewrite Hnb, Hl. simpl.
    apply Nat.eqb_neq in Hlen. rewrite Hlen. reflexivity.
  - intros l Hnb Hl Hlen Hrhs. simpl. rewrite Hnb, Hl. simpl.
    rewrite Hlen, Nat.eqb_refl, Hrhs. reflexivity.
Qed.

(** X3. When a token of the objective text is refused by [float] and the
    tokens before it are blank or accepted, the answer is invalid with the
    reason made from the exception of that token, whatever the constraints
    are: 'Invalid number format: ' and the text of a [ValueError],
    'Validation error: ' and the text of another exception. *)
Theorem first_refused_token_reported (obj_coeffs : string) (before after : list string)
    (tok : string) (e : exn) (constraints : list constraint) :
  split "," obj_coeffs = (before ++ tok :: after)%list ->
  Forall (fun x => truthy (strip x) = true -> exists v, py_float (strip x) = Return v) before ->
  truthy (strip tok) = true ->
  py_float (strip tok) = Raise e ->
  validate_problem_input obj_coeffs constraints = Return (invalid (reason_of e)).
Proof.
  intros Hsplit Hbefore Htok He.
  unfold validate_problem_input, validate_body, parse_coeffs.
  rewrite Hsplit, (float_list_first_refused _ _ _ _ Hbefore Htok He).
  destruct e; reflexivity.
Qed.

(** X4. The relation sign of a constraint is never read by the validation:
    replacing every sign by any text leaves the answer as it is. *)
Theorem validation_ignores_type (t obj_coeffs : string) (constraints : list constraint) :
  validate_problem_input obj_coeffs (map (with_type t) constraints)
  = validate_problem_input obj_coeffs constraints.
Proof.
  unfold validate_problem_input, validate_body.
  destruct (parse_coeffs obj_coeffs) as [[|v vs]|e]; simpl; try reflexivity.
  now rewrite check_constraints_with_type.
Qed.

(** X5. A list of constraints put together from two lists is valid for an
    objective exactly when both lists are, with the same count. *)
Theorem validation_of_appended_lists (obj_coeffs : string)
    (constraints1 constraints2 : list constraint) (n : nat) :
  validate_problem_input obj_coeffs (constraints1 ++ constraints2) = Return (well_formed n)
  <-> validate_problem_input obj_coeffs constraints1 = Return (well_formed n)
      /\ validate_problem_input obj_coeffs constraints2 = Return (well_formed n).
Proof.
  split.
  - intros Hr.
    destruct (validate_valid_inv _ _ _ Hr eq_refl) as (obj_list & Hobj & Hne & Hn & Hall).
    injection Hn as ->. apply Forall_app in Hall as [H1 H2].
    split; now apply validate_accepts.
  - intros [H1 H2].
    destruct (validate_valid_inv _ _ _ H1 eq_refl) as (l1 & Hobj1 & Hne & Hn1 & Hall1).
    destruct (validate_valid_inv _ _ _ H2 eq_refl) as (l2 & Hobj2 & _ & _ & Hall2).
    injection Hn1 as ->.
    assert (l2 = l1) by congruence. subst l2.
    apply validate_accepts; [assumption..|]. apply Forall_app. now split.
Qed.

(** X6. Parsing a coefficient text cut at a comma is parsing the two parts
    one after the other: the lists are appended and the first exception
    wins. A comma at either end of a text adds nothing. *)
Theorem parsing_splits_at_commas (s1 s2 : string) :
  parse_coeffs (s1 ++ "," ++ s2)
  = (a <- parse_coeffs s1 ;; b <- parse_coeffs s2 ;; Return (a ++ b)%list)
  /\ parse_coeffs (s1 ++ ",") = parse_coeffs s1
  /\ parse_coeffs ("," ++ s2) = parse_coeffs s2.
Proof.
  assert (Hcut : forall t1 t2,
             parse_coeffs (t1 ++ "," ++ t2)
             = (a <- parse_coeffs t1 ;; b <- parse_coeffs t2 ;; Return (a ++ b)%list)).
  { intros t1 t2. unfold parse_coeffs.
    change (t1 ++ "," ++ t2) with (t1 ++ String "," t2).
    now rewrite split_app_sep, float_list_app. }
  split; [apply Hcut|split].
  - change (s1 ++ ",") with (s1 ++ "," ++ ""). rewrite Hcut.
    destruct (parse_coeffs s1) as [a|e]; simpl; [|reflexivity].
    now rewrite app_nil_r.
  - reflexivity.
Qed.

End ValidationExtras.

(** Two constraints that pass, then one of three coefficients without a
    right-hand side: the count comes before the right-hand side, and the
    constraint is the third. *)
Lemma first_failing_constraint_reported_witness :
  validate_problem_input "3, 2"
    [row "2, 1" (Some 100%float); row "1, 2" (Some 80%float); row "1, 1, 1" None;
     row "" None]
  = Return (invalid "Constraint 3 has 3 variables, expected 2").
Proof.
  refine (proj1 (proj2 (proj2
            (first_failing_constraint_reported "3, 2" [3%float; 2%float]
               [row "2, 1" (Some 100%float); row "1, 2" (Some 80%float)]
               [row "" None] (row "1, 1, 1" None) _ _ _)))
            [1%float; 1%float; 1%float] _ _ _).
  - reflexivity.
  - discriminate.
  - repeat constructor; simpl; try discriminate;
      eexists; (split; [reflexivity|reflexivity]).
  - reflexivity.
  - reflexivity.
  - simpl; lia.
Defined.

(** The objective '3, , x, y': the token ' x' is the first one refused. *)
Lemma first_refused_token_reported_witness :
  validate_problem_input "3, , x, y" [row "1, 1" None]
  = Return (invalid "Invalid number format: could not convert string to float: 'x'").
Proof.
  refine (first_refused_token_reported "3, , x, y" ["3"; " "] [" y"] " x"
            (ValueError "could not convert string to float: 'x'")
            [row "1, 1" None] _ _ _ _).
  - reflexivity.
  - repeat constructor; simpl; intros H; try discriminate H.
    exists 3%float. reflexivity.
  - reflexivity.
  - reflexivity.
Defined.

(** ** More about display_solution *)

(** The expanders of a log: label and whether expanded. *)
Definition expanders {P : Payloads} (log : list event) : list (string * bool) :=
  flat_map (fun e => match e with
                     | st_expander label expanded => [(label, expanded)]
                     | _ => []
                     end) log.

(** The solvers called in a log, in the order called. *)
Definition solver_calls {P : Payloads} (log : list event) : list solver :=
  flat_map (fun e => match e with
                     | solver_solve s => [s]
                     | _ => []
                     end) log.

Section DisplayMore.
Context {B : Builtins} {P : Payloads}.

(** What is drawn for a status that is none of the four the code knows. *)
Lemma display_other (r : result) (method s : string) :
  status r = Some s ->
  s <> "error" -> s <> "optimal" -> s <> "unbounded" -> s <> "infeasible" ->
  exists before,
    display_solution r method
    = ((before ++ [st_subheader "Final Solution"; st_info ("Status: " ++ s)])%list,
       Return tt).
Proof.
  intros Hs He Ho Hu Hi.
  apply String.eqb_neq in He, Ho, Hu, Hi.
  unfold display_solution, status_is. rewrite Hs. step_display. rewrite He.
  destruct (steps r) as [ss|]; step_display.
  - pose proof (show_steps_returns 1 ss) as Hss.
    destruct (show_steps 1 ss) as [slog sres]. simpl in Hss. subst sres. step_display.
    rewrite Ho. step_display. rewrite Hu. step_display. rewrite Hi. step_display.
    exists (st_subheader "Step-by-Step Solution" :: slog).
    flatten_log. reflexivity.
  - rewrite Ho. step_display. rewrite Hu. step_display. rewrite Hi. step_display.
    exists []. reflexivity.
Qed.



(** The expanders of the loop over the steps, from index [i] on. *)
Lemma show_steps_expanders (i : nat) (ss : list step) :
  expanders (drawn (show_steps i ss))
  = map (fun '(k, s) => ("Step " ++ str_of_nat k ++ ": " ++ title s, (k =? 1)%nat))
        (combine (seq i (length ss)) ss).
Proof.
  unfold expanders.
  revert i; induction ss as [|s rest IH]; intros i; [reflexivity|].
  specialize (IH (S i)). cbn [show_steps length seq combine map].
  destruct (show_steps (S i) rest) as [slog sres]. cbn [drawn fst] in IH.
  destruct (step_table s), (step_figure s); cbn; rewrite IH; reflexivity.
Qed.


(** X8. The loop over the steps opens one expander per step, in the order
    of the steps, labelled 'Step 1: ', 'Step 2: ', ... and the title; the
    first one is expanded and no other. *)
Theorem one_expander_per_step (ss : list step) :
  expanders (drawn (show_steps 1 ss))
  = map (fun '(k, s) => ("Step " ++ str_of_nat k ++ ": " ++ title s, (k =? 1)%nat))
        (combine (seq 1 (length ss)) ss)
  /\ length (expanders (drawn (show_steps 1 ss))) = length ss
  /\ map snd (expanders (drawn (show_steps 1 ss)))
     = match ss with
       | [] => []
       | _ :: rest => true :: map (fun _ => false) rest
       end.
Proof.
  rewrite show_steps_expanders. split; [reflexivity|split].
  - rewrite length_map, length_combine, length_seq. apply Nat.min_id.
  - destruct ss as [|s rest]; [reflexivity|].
    cbn [length seq combine map snd]. f_equal.
    assert (Hrest : forall n, 2 <= n ->
               map snd (map (fun '(k, s0) =>
                               ("Step " ++ str_of_nat k ++ ": " ++ title s0, (k =? 1)%nat))
                            (combine (seq n (length rest)) rest))
               = map (fun _ => false) rest).
    { induction rest as [|s' rest IH]; intros n Hn; [reflexivity|].
      cbn [length seq combine map snd]. f_equal; [|apply IH; lia].
      apply Nat.eqb_neq. lia. }
    apply Hrest. lia.
Qed.

(** X9. A status that is none of 'error', 'optimal', 'unbounded',
    'infeasible' is displayed as it is: after the steps, the subheader of
    the final solution and the line 'Status: ' with the status end the
    page, and nothing is raised. The keys 'message', 'variables' and
    'objective_value' are not read for it. *)
Theorem unknown_status_displayed (r : result) (method s : string) :
  status r = Some s ->
  s <> "error" -> s <> "optimal" -> s <> "unbounded" -> s <> "infeasible" ->
  (exists before,
      display_solution r method
      = ((before ++ [st_subheader "Final Solution"; st_info ("Status: " ++ s)])%list,
         Return tt))
  /\ (forall msg vars z,
         display_solution (with_message (with_solution r vars z) msg) method
         = display_solution r method).
Proof.
  intros Hs He Ho Hu Hi. split; [now apply display_other|].
  intros msg vars z.
  rewrite display_ignores_message by (simpl; congruence).
  apply display_ignores_solution. congruence.
Qed.

End DisplayMore.

(** A result of status 'time_limit' with a message and no other key. *)
Lemma unknown_status_displayed_witness :
  exists before,
    display_solution
      {| status := Some "time_limit"; message := Some "stopped"; steps := None;
         variables := None; objective_value := None |} "Simplex Method"
    = ((before ++ [st_subheader "Final Solution"; st_info "Status: time_limit"])%list,
       Return tt).
Proof.
  refine (proj1 (unknown_status_displayed
            {| status := Some "time_limit"; message := Some "stopped"; steps := None;
               variables := None; objective_value := None |}
            "Simplex Method" "time_limit" _ _ _ _ _)); [reflexivity|discriminate..].
Defined.

(** ** More about solve_problem and the buttons *)

(** A computation that calls no solver. *)
Definition quiet {P : Payloads} {A : Type} (m : ui A) : Prop :=
  solver_calls (drawn m) = [].

Section QuietFacts.
Context {B : Builtins} {P : Payloads}.

Lemma solver_calls_app (l1 l2 : list event) :
  solver_calls (l1 ++ l2) = (solver_calls l1 ++ solver_calls l2)%list.
Proof. apply flat_map_app. Qed.

Lemma quiet_bind {A C : Type} (m : ui A) (k : A -> ui C) :
  quiet m -> (forall a, quiet (k a)) -> quiet (bind m k).
Proof.
  unfold quiet. destruct m as [log [a|e]]; simpl; intros Hm Hk; [|exact Hm].
  specialize (Hk a). destruct (k a) as [log' r]. simpl in *.
  now rewrite solver_calls_app, Hm, Hk.
Qed.

Lemma quiet_ret {A : Type} (a : A) : quiet (ret a).
Proof. reflexivity. Qed.

Lemma quiet_getitem {A : Type} (key : string) (field : option A) :
  quiet (getitem key field).
Proof. destruct field; reflexivity. Qed.

Lemma quiet_for_each {A : Type} (xs : list A) (body : A -> ui unit) :
  (forall x, quiet (body x)) -> quiet (for_each xs body).
Proof.
  intros Hbody. induction xs as [|x rest IH]; simpl; [reflexivity|].
  apply quiet_bind; [apply Hbody|intros _; exact IH].
Qed.

Ltac quiet_step :=
  first [ apply quiet_ret
        | apply quiet_getitem
        | reflexivity
        | apply quiet_bind; [|intros ?]
        | apply quiet_for_each; intros ?
        | match goal with
          | |- quiet (if ?c then _ else _) => destruct c
          | |- quiet (match ?x with _ => _ end) => destruct x
          end ].

Lemma quiet_show_steps (i : nat) (ss : list step) : quiet (show_steps i ss).
Proof.
  revert i; induction ss as [|s rest IH]; intros i; [reflexivity|].
  cbn [show_steps]. repeat first [apply IH | quiet_step].
Qed.

Lemma quiet_status_is (r : result) (s : string) : quiet (status_is r s).
Proof. unfold status_is. repeat quiet_step. Qed.

Lemma quiet_show_optimal (r : result) (method : string) : quiet (show_optimal r method).
Proof. unfold show_optimal. repeat quiet_step. Qed.

Lemma quiet_show_insights (method : string) : quiet (show_insights method).
Proof. unfold show_insights. repeat quiet_step. Qed.

(** [display_solution] calls no solver. *)
Lemma quiet_display (r : result) (method : string) : quiet (display_solution r method).
Proof.
  unfold display_solution.
  repeat first [ apply quiet_status_is | apply quiet_show_optimal
               | apply quiet_show_insights | apply quiet_show_steps | quiet_step ].
Qed.

End QuietFacts.

Section SolveMore.
Context {B : Builtins} {P : Payloads} {K : Backend}.

(** The conditions under which [solve_problem] gets as far as a solver. *)
Definition reaches_solver (problem_type method obj_coeffs : string)
    (constraints : list constraint) (non_negativity : bool) : Prop :=
  exists p formatted,
    parse_problem problem_type obj_coeffs constraints non_negativity = Return p
    /\ error_set p = None
    /\ format_problem p = Return formatted
    /\ (method = "Graphical Method" -> length (objective p) <= 2).

Lemma heading_quiet (formatted method : string) :
  solver_calls (heading formatted method) = [].
Proof. reflexivity. Qed.

Lemma solve_problem_calls (problem_type method obj_coeffs : string)
    (constraints : list constraint) (non_negativity : bool) :
  reaches_solver problem_type method obj_coeffs constraints non_negativity ->
  solver_calls (drawn (solve_problem problem_type method obj_coeffs constraints
                                     non_negativity))
  = [solver_of method].
Proof.
  intros (p & formatted & Hparse & Herr & Hformat & Hguard).
  pose proof (solve_body_runs problem_type method obj_coeffs constraints
                non_negativity p formatted Hparse Herr Hformat Hguard) as Hbody.
  unfold solve_problem, try_except. rewrite Hbody.
  destruct (solve (solver_of method) p) as [r|e].
  - pose proof (quiet_display r method) as Hq. unfold quiet, drawn in Hq.
    change (solver_solve (solver_of method) :: drawn (display_solution r method))
      with ([solver_solve (solver_of method)] ++ drawn (display_solution r method))%list.
    unfold drawn.
    destruct (ending (display_solution r method)) as [[]|e]; cbn [fst emit];
      rewrite ?solver_calls_app, Hq, heading_quiet; reflexivity.
  - reflexivity.
Qed.

Lemma solve_problem_parse_raises (problem_type method obj_coeffs : string)
    (constraints : list constraint) (non_negativity : bool) (e : exn) :
  parse_problem problem_type obj_coeffs constraints non_negativity = Raise e ->
  solve_problem problem_type method obj_coeffs constraints non_negativity
  = ([error_line e], Return tt).
Proof.
  intros Hparse. unfold solve_problem, solve_body, lift. rewrite Hparse. reflexivity.
Qed.

Lemma solve_problem_parse_error (problem_type method obj_coeffs : string)
    (constraints : list constraint) (non_negativity : bool)
    (p : parsed_problem) (msg : string) :
  parse_problem problem_type obj_coeffs constraints non_negativity = Return p ->
  error_set p = Some msg ->
  solve_problem problem_type method obj_coeffs constraints non_negativity
  = ([st_error msg], Return tt).
Proof.
  intros Hparse Herr. unfold solve_problem, solve_body, lift.
  rewrite Hparse. cbn -[display_solution Nat.ltb]. rewrite Herr. reflexivity.
Qed.

Lemma solve_problem_format_raises (problem_type method obj_coeffs : string)
    (constraints : list constraint) (non_negativity : bool)
    (p : parsed_problem) (e : exn) :
  parse_problem problem_type obj_coeffs constraints non_negativity = Return p ->
  error_set p = None ->
  format_problem p = Raise e ->
  solve_problem problem_type method obj_coeffs constraints non_negativity
  = ([st_subheader "Problem Formulation"; error_line e], Return tt).
Proof.
  intros Hparse Herr Hformat. unfold solve_problem, solve_body, lift.
  rewrite Hparse. cbn -[display_solution Nat.ltb]. rewrite Herr, Hformat. reflexivity.
Qed.

Lemma solve_problem_quiet_otherwise (problem_type method obj_coeffs : string)
    (constraints : list constraint) (non_negativity : bool) :
  ~ reaches_solver problem_type method obj_coeffs constraints non_negativity ->
  solver_calls (drawn (solve_problem problem_type method obj_coeffs constraints
                                     non_negativity))
  = [].
Proof.
  intros Hnot.
  destruct (parse_problem problem_type obj_coeffs constraints non_negativity)
    as [p|e] eqn:Hparse;
    [|now rewrite (solve_problem_parse_raises _ _ _ _ _ e Hparse)].
  destruct (error_set p) as [msg|] eqn:Herr;
    [now rewrite (solve_problem_parse_error _ _ _ _ _ p msg Hparse Herr)|].
  destruct (format_problem p) as [formatted|e] eqn:Hformat;
    [|now rewrite (solve_problem_format_raises _ _ _ _ _ p e Hparse Herr Hformat)].
  destruct (String.eqb_spec method "Graphical Method") as [->|Hm].
  - destruct (le_lt_dec (length (objective p)) 2) as [Hle|Hlt].
    + exfalso. apply Hnot. exists p, formatted. repeat split; auto.
    + now rewrite (graphical_guard_rejects _ _ _ _ p formatted Hparse Herr Hformat Hlt).
  - exfalso. apply Hnot. exists p, formatted. repeat split; auto. contradiction.
Qed.

(** X10. [solve_problem] calls a solver at most once. It calls the solver
    of the method (the Big M solver for every method name other than
    'Simplex Method' and 'Graphical Method') when the parser returns a
    problem whose 'error' is [None] or empty, the formatter returns, and,
    for the graphical method, the objective has at most two coefficients;
    in every other case it calls none. *)
Theorem solver_called_once_when_reached (problem_type method obj_coeffs : string)
    (constraints : list constraint) (non_negativity : bool) :
  let calls := solver_calls (drawn (solve_problem problem_type method obj_coeffs
                                                  constraints non_negativity)) in
  let reached := reaches_solver problem_type method obj_coeffs constraints
                                non_negativity in
  (reached -> calls = [solver_of method])
  /\ (~ reached -> calls = [])
  /\ (method <> "Simplex Method" -> method <> "Graphical Method" ->
      solver_of method = BigMSolver).
Proof.
  intros calls reached. subst calls reached.
  split; [apply solve_problem_calls|split; [apply solve_problem_quiet_otherwise|]].
  intros Hs Hg. unfold solver_of.
  apply String.eqb_neq in Hs, Hg. now rewrite Hs, Hg.
Qed.

(** X11. Under the graphical method, once the problem is parsed without
    error and formatted: with more than two objective coefficients the
    page ends with the error line of the method and no solver is called;
    the graphical solver is called exactly when there are at most two. *)
Theorem graphical_guard_characterised (problem_type obj_coeffs : string)
    (constraints : list constraint) (non_negativity : bool)
    (p : parsed_problem) (formatted : string) :
  parse_problem problem_type obj_coeffs constraints non_negativity = Return p ->
  error_set p = None ->
  format_problem p = Return formatted ->
  let run := solve_problem problem_type "Graphical Method" obj_coeffs constraints
                           non_negativity in
  (2 < length (objective p) ->
   run = ((heading formatted "Graphical Method"
           ++ [st_error "Graphical method only supports problems with 2 variables."])%list,
          Return tt))
  /\ (In (solver_solve GraphicalSolver) (drawn run) <-> length (objective p) <= 2).
Proof.
  intros Hparse Herr Hformat run. subst run.
  split; [now apply graphical_guard_rejects|]. split.
  - intros Hin. destruct (le_lt_dec (length (objective p)) 2) as [Hle|Hlt]; [exact Hle|].
    rewrite (graphical_guard_rejects _ _ _ _ p formatted Hparse Herr Hformat Hlt) in Hin.
    cbn in Hin. repeat (destruct Hin as [Hin|Hin]; [discriminate Hin|]). contradiction.
  - intros Hle.
    assert (Hcalls : solver_calls
                       (drawn (solve_problem problem_type "Graphical Method" obj_coeffs
                                             constraints non_negativity))
                     = [GraphicalSolver]).
    { apply solve_problem_calls. exists p, formatted. repeat split; auto. }
    assert (Hin : In GraphicalSolver
                     (solver_calls
                        (drawn (solve_problem problem_type "Graphical Method" obj_coeffs
                                              constraints non_negativity))))
      by (rewrite Hcalls; left; reflexivity).
    unfold solver_calls in Hin. apply in_flat_map in Hin as (ev & Hev & Hs).
    destruct ev; try contradiction. destruct Hs as [->|[]]. exact Hev.
Qed.

(** The answers of [validate_problem_input], as the buttons read them. *)
Lemma validate_answer (obj_coeffs : string) (constraints : list constraint) :
  (exists reason, validate_problem_input obj_coeffs constraints = Return (invalid reason))
  \/ (exists n, validate_problem_input obj_coeffs constraints = Return (well_formed n)).
Proof.
  destruct (validate_returns obj_coeffs constraints) as [r [Hr [[reason ->]|[n ->]]]];
    [left|right]; eauto.
Qed.

(** X12. The blocks under the two buttons raise nothing, whatever the
    texts and the list of constraints are: the keys they read in the answer
    of the validation are always there, and [solve_problem] catches what
    is raised below it. *)
Theorem buttons_never_raise (problem_type method obj_coeffs : string)
    (constraints : list constraint) (non_negativity : bool) :
  ending (validate_clicked problem_type obj_coeffs constraints) = Return tt
  /\ ending (solve_clicked problem_type method obj_coeffs constraints non_negativity)
     = Return tt.
Proof.
  unfold validate_clicked, solve_clicked, lift.
  destruct (truthy obj_coeffs && (0 <? length constraints)%nat); [|split; reflexivity].
  destruct (validate_answer obj_coeffs constraints) as [[reason ->]|[n ->]].
  - split; reflexivity.
  - split; [reflexivity|]. cbn -[solve_problem].
    pose proof (solve_problem_returns problem_type method obj_coeffs constraints
                  non_negativity) as Hend.
    destruct (solve_problem problem_type method obj_coeffs constraints non_negativity).
    exact Hend.
Qed.

(** X13. The solve button calls a solver only for a problem that went
    through the validation: the objective text is not empty, there is a
    constraint, and [validate_problem_input] answered valid. When the
    answer is invalid, the line 'Cannot solve: ' with the reason is all
    that is drawn. *)
Theorem solve_button_validates_first (problem_type method obj_coeffs : string)
    (constraints : list constraint) (non_negativity : bool) :
  let run := solve_clicked problem_type method obj_coeffs constraints non_negativity in
  (solver_calls (drawn run) <> [] ->
   truthy obj_coeffs = true
   /\ constraints <> []
   /\ exists n, validate_problem_input obj_coeffs constraints = Return (well_formed n))
  /\ (forall reason,
         truthy obj_coeffs = true -> constraints <> [] ->
         validate_problem_input obj_coeffs constraints = Return (invalid reason) ->
         run = ([st_error ("Cannot solve: " ++ reason)], Return tt))
  /\ (forall n,
         truthy obj_coeffs = true -> constraints <> [] ->
         validate_problem_input obj_coeffs constraints = Return (well_formed n) ->
         run = solve_problem problem_type method obj_coeffs constraints non_negativity).
Proof.
  intros run. subst run. unfold solve_clicked, lift.
  assert (Hlen : constraints <> [] -> (0 <? length constraints)%nat = true).
  { destruct constraints; [contradiction|reflexivity]. }
  split; [|split].
  - destruct (truthy obj_coeffs) eqn:Hobj; [|intros H; now contradiction H].
    destruct constraints as [|c rest]; [intros H; now contradiction H|].
    cbn [andb length Nat.ltb Nat.leb].
    destruct (validate_answer obj_coeffs (c :: rest)) as [[reason Hr]|[n Hr]]; rewrite Hr.
    + intros H. now contradiction H.
    + intros _. split; [reflexivity|]. split; [discriminate|]. now exists n.
  - intros reason Hobj Hne Hr. rewrite Hobj, (Hlen Hne), Hr. reflexivity.
  - intros n Hobj Hne Hr. rewrite Hobj, (Hlen Hne), Hr. cbn -[solve_problem].
    destruct (solve_problem problem_type method obj_coeffs constraints non_negativity).
    reflexivity.
Qed.

(** X14. For a valid problem the validate button reports the number of
    non-blank tokens of the objective text as the number of variables, the
    length of the list as the number of constraints, and the problem type;
    for an invalid one, the reason. *)
Theorem validate_button_report (problem_type obj_coeffs : string)
    (constraints : list constraint) :
  truthy obj_coeffs = true ->
  constraints <> [] ->
  (forall n,
      validate_problem_input obj_coeffs constraints = Return (well_formed n) ->
      validate_clicked problem_type obj_coeffs constraints
      = ([st_success "✅ Problem is well-formulated!";
          st_markdown "**Problem Summary:**";
          st_markdown ("• Variables: " ++ str_of_nat (length (non_blank_tokens obj_coeffs)));
          st_markdown ("• Constraints: " ++ str_of_nat (length constraints));
          st_markdown ("• Problem type: " ++ problem_type)],
         Return tt))
  /\ (forall reason,
         validate_problem_input obj_coeffs constraints = Return (invalid reason) ->
         validate_clicked problem_type obj_coeffs constraints
         = ([st_error ("❌ Problem validation failed: " ++ reason)], Return tt)).
Proof.
  intros Hobj Hne.
  assert (Hlen : (0 <? length constraints)%nat = true).
  { destruct constraints; [contradiction|reflexivity]. }
  unfold validate_clicked, lift. rewrite Hobj, Hlen. split.
  - intros n Hr. rewrite Hr.
    destruct (validate_valid_inv _ _ _ Hr eq_refl) as (obj_list & Hparse & _ & Hn & _).
    injection Hn as ->. rewrite (float_list_length _ _ Hparse). reflexivity.
  - intros reason Hr. rewrite Hr. reflexivity.
Qed.

End SolveMore.

(** ** The form of show_problem_input *)

(** The values that [show_problem_input] computes between its widgets: the
    defaults taken from the chosen template and the list [constraints]. The
    relation signs, which are only stored and compared, are kept in UTF-8.
    A widget is a function from what identifies it (its key, or its label
    when it has no key) and its default to the value it returns. *)

(** One entry of the dict [templates]. *)
Record template : Type := {
  t_obj : string;                                   (* key 'obj' *)
  t_constraints : list (string * string * float)    (* key 'constraints' *)
}.

Definition templates : list (string * template) :=
  [("Production Planning",
    {| t_obj := "3, 2";
       t_constraints := [("2, 1", "≤", 100%float); ("1, 2", "≤", 80%float)] |});
   ("Resource Allocation",
    {| t_obj := "25, 40";
       t_constraints := [("4, 3", "≤", 240%float); ("2, 6", "≤", 300%float)] |});
   ("Diet Problem",
    {| t_obj := "2, 3";
       t_constraints := [("1, 2", "≥", 8%float); ("3, 1", "≥", 12%float)] |});
   ("Investment Portfolio",
    {| t_obj := "0.08, 0.12";
       t_constraints := [("1, 1", "≤", 10000%float); ("1, 0", "≥", 3000%float);
                         ("0, 1", "≤", 6000%float)] |})].

(** The options of the selector 'Choose a template to get started faster:'. *)
Definition template_options : list string :=
  ["Start from scratch"; "Production Planning"; "Resource Allocation"; "Diet Problem";
   "Investment Portfolio"].

(** [templates[name]] *)
Fixpoint lookup_template (name : string) (table : list (string * template))
  : outcome template :=
  match table with
  | [] => Raise (KeyError name)
  | (key, t) :: rest => if key =? name then Return t else lookup_template name rest
  end.

(** The default of the objective field. *)
Definition default_obj (name : string) : outcome string :=
  if negb (name =? "Start from scratch") then
    obind (lookup_template name templates) (fun t => Return (t_obj t))
  else Return "".

(** The list [template_constraints]. *)
Definition template_constraints (name : string)
  : outcome (list (string * string * float)) :=
  if negb (name =? "Start from scratch") then
    obind (lookup_template name templates) (fun t => Return (t_constraints t))
  else Return [].

Definition type_options : list string := ["≤"; "≥"; "="].

(** [options.index(x)], for an [x] that is in the list. *)
Fixpoint index_of (x : string) (options : list string) : nat :=
  match options with
  | [] => 0
  | o :: rest => if o =? x then 0 else S (index_of x rest)
  end.

(** [type_options.index(default_type) if default_type in type_options else 0] *)
Definition default_index (default_type : string) : nat :=
  if existsb (fun o => o =? default_type) type_options
  then index_of default_type type_options
  else 0.

(** The defaults of row [i]: those of the template when it has a row [i]. *)
Definition row_defaults (rows : list (string * string * float)) (i : nat)
  : string * string * float :=
  if (i <? length rows)%nat then nth i rows ("", "≤", 0%float) else ("", "≤", 0%float).

Class Widgets : Type := {
  text_input : string -> string -> string;           (* key, value *)
  selectbox : string -> list string -> nat -> string;  (* key, options, index *)
  number_input : string -> float -> float            (* key, value *)
}.

(** Widgets nobody has touched return their defaults. *)
Definition untouched (W : Widgets) : Prop :=
  (forall key value, text_input key value = value)
  /\ (forall key options index, selectbox key options index = nth index options "")
  /\ (forall key value, number_input key value = value).

#[export] Instance fresh_widgets : Widgets :=
  {| text_input := fun _ value => value;
     selectbox := fun _ options index => nth index options "";
     number_input := fun _ value => value |}.

Section Form.
Context {W : Widgets}.

(** The loop [for i in range(num_constraints)], over the indices left. *)
Fixpoint form_rows (rows : list (string * string * float)) (indices : list nat)
  : list constraint :=
  match indices with
  | [] => []
  | i :: rest =>
      let '(default_coeffs, default_type, default_rhs) := row_defaults rows i in
      let constraint_coeffs :=
        text_input ("constraint_" ++ str_of_nat i ++ "_coeffs") default_coeffs in
      let constraint_type :=
        selectbox ("constraint_" ++ str_of_nat i ++ "_type") type_options
                  (default_index default_type) in
      let rhs_value := number_input ("constraint_" ++ str_of_nat i ++ "_rhs") default_rhs in
      if truthy constraint_coeffs then
        {| coefficients := constraint_coeffs; type := constraint_type;
           rhs := Some rhs_value |} :: form_rows rows rest
      else form_rows rows rest
  end.

(** The list [constraints] after the loop. *)
Definition form_constraints (rows : list (string * string * float))
    (num_constraints : nat) : list constraint :=
  form_rows rows (seq 0 num_constraints).

End Form.

(** A row of a template as the constraint the form makes of it. *)
Definition constraint_of (entry : string * string * float) : constraint :=
  let '(coeffs, sign, value) := entry in
  {| coefficients := coeffs; type := sign; rhs := Some value |}.

(** The coefficient texts of a template: the objective, then the rows. *)
Definition template_texts (t : template) : list string :=
  t_obj t :: map (fun entry => fst (fst entry)) (t_constraints t).

Section FormFacts.
Context {B : Builtins} {W : Widgets}.

Lemma float_list_accepts (tokens : list string) :
  (forall tok, In tok tokens -> truthy (strip tok) = true ->
               exists v, py_float (strip tok) = Return v) ->
  exists l, float_list tokens = Return l
            /\ length l = length (filter (fun x => truthy (strip x)) tokens).
Proof.
  induction tokens as [|x rest IH]; intros Hacc; simpl.
  - exists []. split; reflexivity.
  - destruct IH as (vs & Hvs & Hlen); [intros tok Hin; apply Hacc; now right|].
    destruct (truthy (strip x)) eqn:Hx.
    + destruct (Hacc x (or_introl eq_refl) Hx) as [v Hv].
      exists (v :: vs). rewrite Hv. simpl. rewrite Hvs. simpl. now rewrite Hlen.
    + exists vs. now split.
Qed.

(** A text whose non-blank tokens [float] accepts parses, to as many
    entries as it has non-blank tokens. *)
Lemma parse_accepts (s : string) :
  (forall tok, In tok (non_blank_tokens s) -> exists v, py_float (strip tok) = Return v) ->
  exists l, parse_coeffs s = Return l /\ length l = length (non_blank_tokens s).
Proof.
  intros Hacc. apply float_list_accepts. intros tok Hin Htok.
  apply Hacc. apply filter_In. now split.
Qed.

Lemma check_constraints_reason (num_vars i : nat) (constraints : list constraint)
    (reason : string) :
  Forall (fun c => rhs c <> None) constraints ->
  check_constraints num_vars i constraints = Return (invalid reason) ->
  prefix "Missing RHS" reason = false.
Proof.
  intros Hall. revert i. induction Hall as [|c rest Hc _ IH]; intros i H; simpl in H.
  - discriminate.
  - destruct (truthy (strip (coefficients c))); simpl in H;
      [|injection H as <-; reflexivity].
    destruct (parse_coeffs (coefficients c)) as [l|e]; simpl in H; [|discriminate].
    destruct (length l =? num_vars)%nat; simpl in H; [|injection H as <-; reflexivity].
    destruct (rhs c); [now apply (IH (S i))|contradiction].
Qed.

Lemma form_rows_present (rows : list (string * string * float)) (indices : list nat) :
  Forall (fun c => truthy (coefficients c) = true /\ rhs c <> None)
         (form_rows rows indices)
  /\ length (form_rows rows indices) <= length indices.
Proof.
  induction indices as [|i rest [IHall IHlen]]; simpl; [split; [constructor|lia]|].
  destruct (row_defaults rows i) as [[default_coeffs default_type] default_rhs].
  destruct (truthy (text_input _ default_coeffs)) eqn:Htext; simpl.
  - split; [|lia]. constructor; [|exact IHall]. simpl. split; [exact Htext|discriminate].
  - split; [exact IHall|lia].
Qed.

Lemma default_index_nth (sign : string) :
  In sign type_options -> nth (default_index sign) type_options "" = sign.
Proof.
  intros [<-|[<-|[<-|[]]]]; reflexivity.
Qed.

Lemma skipn_cons_nth {A : Type} (l : list A) (i : nat) (d : A) :
  i < length l -> skipn i l = nth i l d :: skipn (S i) l.
Proof.
  revert i; induction l as [|x rest IH]; intros i Hi; simpl in Hi; [lia|].
  destruct i as [|i]; [reflexivity|]. simpl. apply IH. lia.
Qed.

Lemma form_rows_untouched (rows : list (string * string * float)) (i k : nat) :
  untouched W ->
  Forall (fun entry => truthy (fst (fst entry)) = true
                       /\ In (snd (fst entry)) type_options) rows ->
  form_rows rows (seq i k) = map constraint_of (firstn k (skipn i rows)).
Proof.
  intros (Htext & Hselect & Hnumber) Hrows. revert i.
  induction k as [|k IH]; intros i; [reflexivity|].
  cbn [seq form_rows]. unfold row_defaults.
  destruct (i <? length rows)%nat eqn:Hi.
  - apply Nat.ltb_lt in Hi.
    rewrite (skipn_cons_nth rows i ("", "≤", 0%float) Hi).
    assert (Hin : In (nth i rows ("", "≤", 0%float)) rows) by now apply nth_In.
    rewrite Forall_forall in Hrows. specialize (Hrows _ Hin).
    destruct (nth i rows ("", "≤", 0%float)) as [[coeffs sign] value].
    simpl in Hrows. destruct Hrows as [Hcoeffs Hsign].
    rewrite Htext, Hselect, Hnumber, Hcoeffs, (default_index_nth sign Hsign).
    cbn [firstn map constraint_of]. f_equal. apply IH.
  - apply Nat.ltb_ge in Hi. rewrite Htext. cbn [truthy].
    rewrite IH, (skipn_all2 rows Hi), (skipn_all2 rows) by lia.
    now rewrite !firstn_nil.
Qed.

(** X15. The index handed to the selector of the relation signs finds the
    sign back: for a sign that is one of the three options, the option at
    [default_index] is that sign; for any other text the index is 0; and
    the index is always within the options. *)
Theorem default_index_finds_sign (sign : string) :
  (In sign type_options -> nth (default_index sign) type_options "" = sign)
  /\ (~ In sign type_options -> default_index sign = 0)
  /\ default_index sign < length type_options.
Proof.
  split; [apply default_index_nth|]. unfold default_index, type_options.
  cbn [existsb index_of In length].
  destruct (String.eqb_spec "≤" sign) as [H1|H1];
    destruct (String.eqb_spec "≥" sign) as [H2|H2];
    destruct (String.eqb_spec "=" sign) as [H3|H3]; cbn [orb];
    (split; [intros Hnot; try reflexivity; exfalso; apply Hnot; tauto|lia]).
Qed.

(** X16. Whatever the widgets return, every constraint that the form
    builds has a coefficient text that is not empty and a right-hand side
    that is there, and there are at most [num_constraints] of them. So the
    validation of a list built by the form never gives the reason
    'Missing RHS value ...'. *)
Theorem form_constraints_have_rhs (rows : list (string * string * float))
    (num_constraints : nat) :
  Forall (fun c => truthy (coefficients c) = true /\ rhs c <> None)
         (form_constraints rows num_constraints)
  /\ length (form_constraints rows num_constraints) <= num_constraints
  /\ (forall obj_coeffs reason,
         validate_problem_input obj_coeffs (form_constraints rows num_constraints)
         = Return (invalid reason) ->
         prefix "Missing RHS" reason = false).
Proof.
  unfold form_constraints.
  destruct (form_rows_present rows (seq 0 num_constraints)) as [Hall Hlen].
  rewrite length_seq in Hlen. split; [exact Hall|split; [exact Hlen|]].
  intros obj_coeffs reason. unfold validate_problem_input, validate_body.
  destruct (parse_coeffs obj_coeffs) as [[|v vs]|e]; simpl.
  - intros H; injection H as <-; reflexivity.
  - destruct (check_constraints (S (length vs)) 0 (form_rows rows (seq 0 num_constraints)))
      as [r|e] eqn:Hc.
    + intros H; injection H as ->.
      apply (check_constraints_reason _ _ _ _ (Forall_impl _ (fun c H => proj2 H) Hall) Hc).
    + destruct e; intros H; injection H as <-; reflexivity.
  - destruct e; intros H; injection H as <-; reflexivity.
Qed.

(** X17. With widgets nobody has touched, and template rows whose
    coefficient texts are not empty and whose signs are among the options,
    the list of constraints is the first [num_constraints] rows of the
    template: rows beyond that number are not taken, and the rows of the
    form beyond the template, which are empty, are dropped. Without a
    template the list is empty. *)
Theorem untouched_form_takes_template_rows (rows : list (string * string * float))
    (num_constraints : nat) :
  untouched W ->
  Forall (fun entry => truthy (fst (fst entry)) = true
                       /\ In (snd (fst entry)) type_options) rows ->
  form_constraints rows num_constraints = map constraint_of (firstn num_constraints rows)
  /\ form_constraints [] num_constraints = [].
Proof.
  intros Hw Hrows. unfold form_constraints. split.
  - now rewrite (form_rows_untouched rows 0 num_constraints Hw Hrows).
  - rewrite (form_rows_untouched [] 0 num_constraints Hw (Forall_nil _)).
    now rewrite firstn_nil.
Qed.

End FormFacts.

Section TemplateFacts.
Context {B : Builtins}.

Lemma template_validates (t : template) :
  length (non_blank_tokens (t_obj t)) = 2 ->
  Forall (fun entry => truthy (strip (fst (fst entry))) = true
                       /\ length (non_blank_tokens (fst (fst entry))) = 2)
         (t_constraints t) ->
  (forall text tok, In text (template_texts t) -> In tok (non_blank_tokens text) ->
                    exists v, py_float (strip tok) = Return v) ->
  validate_problem_input (t_obj t) (map constraint_of (t_constraints t))
  = Return (well_formed 2).
Proof.
  intros Hobj Hrows Hacc.
  destruct (parse_accepts (t_obj t)) as (obj_list & Hparse & Hlen).
  { intros tok Htok. apply (Hacc (t_obj t)); [now left|exact Htok]. }
  rewrite Hobj in Hlen. rewrite <- Hlen.
  apply validate_accepts; [exact Hparse|destruct obj_list; [discriminate|discriminate]|].
  rewrite Hlen. apply Forall_map. rewrite Forall_forall in Hrows |- *.
  intros [[coeffs sign] value] Hin. destruct (Hrows _ Hin) as [Hnb Hcount]. simpl in *.
  destruct (parse_accepts coeffs) as (l & Hl & Hll).
  { intros tok Htok. apply (Hacc coeffs); [|exact Htok].
    right. apply in_map_iff. now exists (coeffs, sign, value). }
  repeat split; simpl; [exact Hnb| |discriminate].
  exists l. split; [exact Hl|congruence].
Qed.

(** X18. Every option of the template selector other than 'Start from
    scratch' is a key of [templates]. The rows of each template have
    coefficient texts that are not empty and signs among the options of the
    form, and once [float] accepts the tokens of its texts, the template is
    a valid problem of two variables. *)
Theorem templates_are_valid_problems (name : string) :
  In name template_options ->
  name <> "Start from scratch" ->
  exists t,
    lookup_template name templates = Return t
    /\ default_obj name = Return (t_obj t)
    /\ template_constraints name = Return (t_constraints t)
    /\ Forall (fun entry => truthy (fst (fst entry)) = true
                            /\ In (snd (fst entry)) type_options) (t_constraints t)
    /\ ((forall text tok, In text (template_texts t) -> In tok (non_blank_tokens text) ->
                          exists v, py_float (strip tok) = Return v) ->
        validate_problem_input (t_obj t) (map constraint_of (t_constraints t))
        = Return (well_formed 2)).
Proof.
  intros Hin Hname.
  destruct Hin as [<-|[<-|[<-|[<-|[<-|[]]]]]]; [contradiction| | | |];
    eexists; (split; [reflexivity|]); (split; [reflexivity|]); (split; [reflexivity|]);
    (split; [repeat (apply Forall_cons; [split; [reflexivity|simpl; tauto]|]);
             apply Forall_nil|]);
    (apply template_validates;
     [reflexivity|repeat (apply Forall_cons; [split; reflexivity|]); apply Forall_nil]).
Qed.

End TemplateFacts.

(** ** The string builtins *)

Lemma join_cons_char (sep c : ascii) (piece : string) (pieces : list string) :
  join sep (String c piece :: pieces) = String c (join sep (piece :: pieces)).
Proof. destruct pieces; reflexivity. Qed.

Lemma lstrip_blank (s : string) :
  lstrip s = "" <-> Forall (fun c => isspace c = true) (list_ascii_of_string s).
Proof.
  induction s as [|c rest IH]; simpl.
  - split; [constructor|reflexivity].
  - destruct (isspace c) eqn:Hc.
    + rewrite IH. split; [now constructor|intros H; now inversion H].
    + split; [discriminate|intros H; inversion H; congruence].
Qed.

Lemma rstrip_blank (s : string) :
  rstrip s = "" <-> Forall (fun c => isspace c = true) (list_ascii_of_string s).
Proof.
  induction s as [|c rest IH]; simpl.
  - split; [constructor|reflexivity].
  - destruct (rstrip rest) as [|c' kept] eqn:Hr.
    + destruct (isspace c) eqn:Hc.
      * split; [intros _; constructor; [exact Hc|now apply IH]|reflexivity].
      * split; [discriminate|intros H; inversion H; congruence].
    + split; [discriminate|].
      intros H; inversion H as [|? ? _ Hrest]; subst.
      apply IH in Hrest. discriminate.
Qed.

Lemma lstrip_suffix (s : string) :
  exists spaces, Forall (fun c => isspace c = true) spaces
                 /\ list_ascii_of_string s = (spaces ++ list_ascii_of_string (lstrip s))%list.
Proof.
  induction s as [|c rest (spaces & Hsp & Heq)]; simpl.
  - exists []. split; [constructor|reflexivity].
  - destruct (isspace c) eqn:Hc.
    + exists (c :: spaces). split; [now constructor|]. simpl. now rewrite Heq.
    + exists []. split; [constructor|reflexivity].
Qed.

(** X19. Splitting at a character and joining with it gives the text
    back; there is one piece more than there are separators in the text,
    so at least one; and no piece holds the separator. *)
Theorem split_join_round_trip (sep : ascii) (s : string) :
  join sep (split sep s) = s
  /\ length (split sep s)
     = S (length (filter (Ascii.eqb sep) (list_ascii_of_string s)))
  /\ Forall (fun piece => ~ In sep (list_ascii_of_string piece)) (split sep s).
Proof.
  induction s as [|c rest (IHjoin & IHlen & IHsep)]; simpl.
  - split; [reflexivity|split; [reflexivity|]]. constructor; [|constructor]. intros [].
  - rewrite (Ascii.eqb_sym sep c).
    pose proof (split_not_nil sep rest) as Hne.
    destruct (Ascii.eqb_spec c sep) as [->|Hc].
    + split; [|split].
      * destruct (split sep rest) as [|p ps] eqn:Hs; [contradiction|].
        cbn [join]. simpl. now rewrite <- IHjoin.
      * simpl. now rewrite IHlen.
      * constructor; [intros []|exact IHsep].
    + destruct (split sep rest) as [|p ps] eqn:Hs; [contradiction|].
      split; [|split].
      * rewrite join_cons_char. now rewrite IHjoin.
      * exact IHlen.
      * inversion IHsep as [|? ? Hp Hps]; subst. constructor; [|exact Hps].
        simpl. intros [Heq|Hin]; [congruence|contradiction].
Qed.

(** X20. A token is blank, that is dropped by the parsing, exactly when
    all its characters are white space; in particular the empty token is. *)
Theorem blank_means_white_space (s : string) :
  truthy (strip s) = false
  <-> Forall (fun c => isspace c = true) (list_ascii_of_string s).
Proof.
  unfold strip.
  assert (Hempty : truthy (rstrip (lstrip s)) = false <-> rstrip (lstrip s) = "").
  { destruct (rstrip (lstrip s)); simpl; split; congruence. }
  rewrite Hempty, rstrip_blank.
  destruct (lstrip_suffix s) as (spaces & Hsp & Heq). rewrite Heq. split.
  - intros H. apply Forall_app. now split.
  - intros H. now apply Forall_app in H.
Qed.

(** ** Runs of the further properties on the samples *)

(** The simplex method reaches its solver; a parser error stops before. *)
Lemma solver_called_once_when_reached_witness :
  solver_calls (drawn (solve_problem "Maximize" "Simplex Method" "3, 2"
                                     [row "1, 1" (Some 4%float)] true))
  = [SimplexSolver]
  /\ solver_calls (drawn (solve_problem "Maximize" "Simplex Method" "3, x"
                                        [row "1, 1" (Some 4%float)] true))
     = [].
Proof.
  split.
  - refine (proj1 (solver_called_once_when_reached "Maximize" "Simplex Method" "3, 2"
                     [row "1, 1" (Some 4%float)] true) _).
    exists (sample_problem [3%float; 2%float]), "Maximize Z".
    repeat split; reflexivity.
  - refine (proj1 (proj2 (solver_called_once_when_reached "Maximize" "Simplex Method"
                            "3, x" [row "1, 1" (Some 4%float)] true)) _).
    intros (p & formatted & Hparse & Herr & _).
    injection Hparse as <-. discriminate Herr.
Defined.

(** Three coefficients under the graphical method are refused, two are not. *)
Lemma graphical_guard_characterised_witness :
  solve_problem "Maximize" "Graphical Method" "1, 2, 3" [row "1, 1, 1" (Some 4%float)] true
  = ((heading "Maximize Z" "Graphical Method"
      ++ [st_error "Graphical method only supports problems with 2 variables."])%list,
     Return tt)
  /\ In (solver_solve GraphicalSolver)
        (drawn (solve_problem "Maximize" "Graphical Method" "3, 2"
                              [row "1, 1" (Some 4%float)] true)).
Proof.
  split.
  - refine (proj1 (graphical_guard_characterised "Maximize" "1, 2, 3"
                     [row "1, 1, 1" (Some 4%float)] true
                     (sample_problem [1%float; 2%float; 3%float]) "Maximize Z" _ _ _) _);
      try reflexivity.
    simpl; lia.
  - refine (proj2 (proj2 (graphical_guard_characterised "Maximize" "3, 2"
                            [row "1, 1" (Some 4%float)] true
                            (sample_problem [3%float; 2%float]) "Maximize Z" _ _ _)) _);
      try reflexivity.
Defined.

(** The solve button on an objective that does not parse. *)
Lemma solve_button_validates_first_witness :
  solve_clicked "Maximize" "Simplex Method" "3, x" [row "1, 1" (Some 4%float)] true
  = ([st_error "Cannot solve: Invalid number format: could not convert string to float: 'x'"],
     Return tt).
Proof.
  refine (proj1 (proj2 (solve_button_validates_first "Maximize" "Simplex Method" "3, x"
                          [row "1, 1" (Some 4%float)] true))
            "Invalid number format: could not convert string to float: 'x'" _ _ _).
  - reflexivity.
  - discriminate.
  - reflexivity.
Defined.

(** The validate button on the objective '3,,2' with one constraint. *)
Lemma validate_button_report_witness :
  validate_clicked "Maximize" "3,,2" [row "1, 1" (Some 4%float)]
  = ([st_success "✅ Problem is well-formulated!";
      st_markdown "**Problem Summary:**";
      st_markdown "• Variables: 2";
      st_markdown "• Constraints: 1";
      st_markdown "• Problem type: Maximize"],
     Return tt).
Proof.
  refine (proj1 (validate_button_report "Maximize" "3,,2" [row "1, 1" (Some 4%float)] _ _)
            2 _).
  - reflexivity.
  - discriminate.
  - reflexivity.
Defined.

(** The template 'Investment Portfolio' in a form of two rows: its third
    row is not taken. *)
Lemma untouched_form_takes_template_rows_witness :
  form_constraints
    [("1, 1", "≤", 10000%float); ("1, 0", "≥", 3000%float); ("0, 1", "≤", 6000%float)] 2
  = [ {| coefficients := "1, 1"; type := "≤"; rhs := Some 10000%float |};
      {| coefficients := "1, 0"; type := "≥"; rhs := Some 3000%float |} ].
Proof.
  refine (proj1 (untouched_form_takes_template_rows
                   [("1, 1", "≤", 10000%float); ("1, 0", "≥", 3000%float);
                    ("0, 1", "≤", 6000%float)] 2 _ _)).
  - repeat split.
  - repeat (apply Forall_cons; [split; [reflexivity|simpl; tauto]|]). apply Forall_nil.
Defined.

(** The template 'Production Planning' under [decimal_float]. *)
Lemma templates_are_valid_problems_witness :
  exists t,
    lookup_template "Production Planning" templates = Return t
    /\ validate_problem_input (t_obj t) (map constraint_of (t_constraints t))
       = Return (well_formed 2).
Proof.
  destruct (templates_are_valid_problems "Production Planning")
    as (t & Hlookup & _ & _ & _ & Hvalid).
  - right; left; reflexivity.
  - discriminate.
  - exists t. split; [exact Hlookup|]. apply Hvalid.
    injection Hlookup as <-. intros text tok Htext Htok.
    destruct Htext as [<-|[<-|[<-|[]]]];
      repeat (destruct Htok as [<-|Htok]; [eexists; reflexivity|]); contradiction.
Defined.
